(** * TimeBank: the browser client (frontend/src/App.js) and the task
    lifecycle it talks to

    The client is embedded function by function: every handler becomes a
    function from its inputs and the server's answer to the list of actions
    it performs, in program order.  JavaScript strings are sequences of
    UTF-16 code units, objects used as parameter bags are finite maps.

    The task lifecycle and the time-credit ledger run on the server, whose
    code is not part of the client; module [Core] models them from the
    written specification. *)

From Stdlib Require Import ZArith NArith Lia String Ascii.
From Stdlib Require Import DecimalPos.
From stdpp Require Import gmap strings list.

(** ** JavaScript values used by the client *)

Module JS.

(** A string is its sequence of UTF-16 code units. *)
Definition jsstring := list N.

(** String literals of the source, written as Rocq strings. *)
Fixpoint js (s : string) : jsstring :=
  match s with
  | EmptyString => []
  | String c r => N_of_ascii c :: js r
  end.

(** [a === b] on strings. *)
Definition strict_eq (a b : jsstring) : bool := bool_decide (a = b).

(** [Boolean(s)], and the truthiness test of [!s], [s || d], [if (s)]:
    a string is truthy when it is not empty. *)
Definition Boolean (s : jsstring) : bool :=
  match s with
  | [] => false
  | _ :: _ => true
  end.

(** A property that holds [null], [undefined] or a string. *)
Definition truthy (v : option jsstring) : bool :=
  match v with
  | None => false
  | Some s => Boolean s
  end.

(** WhiteSpace and LineTerminator code points (ECMA-262, 12.2 and 12.3):
    the characters [trim] strips and [parseInt] skips. *)
Definition isWhiteSpace (c : N) : bool :=
  ((c =? 9) || (c =? 10) || (c =? 11) || (c =? 12) || (c =? 13) || (c =? 32)
   || (c =? 160) || (c =? 5760) || ((8192 <=? c) && (c <=? 8202))
   || (c =? 8232) || (c =? 8233) || (c =? 8239) || (c =? 8287)
   || (c =? 12288) || (c =? 65279))%N.

Fixpoint takeWhile (f : N -> bool) (s : jsstring) : jsstring :=
  match s with
  | [] => []
  | c :: r => if f c then c :: takeWhile f r else []
  end.

Fixpoint dropWhile (f : N -> bool) (s : jsstring) : jsstring :=
  match s with
  | [] => []
  | c :: r => if f c then dropWhile f r else s
  end.

Definition trimStart (s : jsstring) : jsstring := dropWhile isWhiteSpace s.
Definition trimEnd (s : jsstring) : jsstring :=
  rev (dropWhile isWhiteSpace (rev s)).

(** [s.trim()] *)
Definition trim (s : jsstring) : jsstring := trimEnd (trimStart s).

(** [s.split(sep)] for a one-character separator: the pieces between the
    separators, the empty string giving one empty piece. *)
Fixpoint split (sep : N) (s : jsstring) : list jsstring :=
  match s with
  | [] => [[]]
  | c :: r =>
      if (c =? sep)%N then [] :: split sep r
      else match split sep r with
           | w :: ws => (c :: w) :: ws
           | [] => [[c]]
           end
  end.

(** [pieces.join(sep)] *)
Fixpoint join (sep : N) (pieces : list jsstring) : jsstring :=
  match pieces with
  | [] => []
  | [w] => w
  | w :: ws => w ++ sep :: join sep ws
  end.

Definition comma : N := 44.

(** The numbers [parseInt] can return: NaN, an integer that a double
    holds, or an infinity.  [Num 0] stands for both zeros, which the
    client never tells apart. *)
Inductive number :=
| NaN
| Num (z : Z)
| Infinity (negative : bool).

(** Truthiness of a number: NaN and 0 are falsy. *)
Definition truthy_number (x : number) : bool :=
  match x with
  | NaN => false
  | Num z => negb (z =? 0)%Z
  | Infinity _ => true
  end.

(** The Number value for a mathematical integer (ECMA-262, 6.1.6.1): the
    nearest double, ties to the even significand.  Below 2^53 every
    integer is a double; from there on the integer has more than 53 bits:
    with [e] the number of bits beyond 53, it is rounded to a multiple of
    [2^e], and a result that reaches 2^1024 is an infinity. *)
Definition toNumber (z : Z) : number :=
  let a := Z.abs z in
  if (a <? 2 ^ 53)%Z then Num z
  else
    let e := (Z.log2 a - 52)%Z in
    let q := (a / 2 ^ e)%Z in
    let r := (a mod 2 ^ e)%Z in
    let half := (2 ^ (e - 1))%Z in
    let q' := if (half <? r)%Z || ((r =? half)%Z && Z.odd q)
              then (q + 1)%Z else q in
    let m := (q' * 2 ^ e)%Z in
    if (2 ^ 1024 <=? m)%Z then Infinity (z <? 0)%Z
    else Num (Z.sgn z * m).

(** [x || d] on numbers. *)
Definition or_number (x d : number) : number :=
  if truthy_number x then x else d.

(** Value of a digit in radix 10 or 16. *)
Definition digitValue (radix : Z) (c : N) : option Z :=
  let v :=
    if ((48 <=? c) && (c <=? 57))%N then Some (Z.of_N c - 48)%Z
    else if ((97 <=? c) && (c <=? 102))%N then Some (Z.of_N c - 87)%Z
    else if ((65 <=? c) && (c <=? 70))%N then Some (Z.of_N c - 55)%Z
    else None in
  match v with
  | Some d => if (d <? radix)%Z then Some d else None
  | None => None
  end.

(** Longest prefix of digits, read left to right: [acc] is the value of the
    digits read so far, [seen] tells whether there was one. *)
Fixpoint parseDigits (radix : Z) (s : jsstring) (acc : Z) (seen : bool)
  : option Z :=
  match s with
  | [] => if seen then Some acc else None
  | c :: r =>
      match digitValue radix c with
      | Some d => parseDigits radix r (acc * radix + d)%Z true
      | None => if seen then Some acc else None
      end
  end.

(** The steps of [parseInt(s)] with no radix argument (ECMA-262, 19.2.5):
    a leading [-] or [+] is read as the sign; a leading [0x] or [0X]
    selects radix 16, anything else radix 10. *)
Definition readSign (s : jsstring) : Z * jsstring :=
  match s with
  | 45%N :: r => ((-1)%Z, r)
  | 43%N :: r => (1%Z, r)
  | _ => (1%Z, s)
  end.

Definition readRadix (s : jsstring) : Z * jsstring :=
  match s with
  | 48%N :: 120%N :: r => (16%Z, r)
  | 48%N :: 88%N :: r => (16%Z, r)
  | _ => (10%Z, s)
  end.

(** [parseInt(s)]: skip leading white space, read the sign and the radix,
    then the longest prefix of digits; no digit at all gives NaN, and the
    result is the Number value for the signed value of the digits.  (With
    more than 20 significant digits in radix 16 the standard lets an
    implementation read the later ones as 0; all digits count here.) *)
Definition parseInt (s : jsstring) : number :=
  let (sign, unsigned) := readSign (trimStart s) in
  let (radix, digits) := readRadix unsigned in
  match parseDigits radix digits 0 false with
  | Some n => toNumber (sign * n)
  | None => NaN
  end.

(** The decimal digits of a numeral, as code units. *)
Fixpoint digitsOf (d : Decimal.uint) : jsstring :=
  match d with
  | Decimal.Nil => []
  | Decimal.D0 r => 48%N :: digitsOf r
  | Decimal.D1 r => 49%N :: digitsOf r
  | Decimal.D2 r => 50%N :: digitsOf r
  | Decimal.D3 r => 51%N :: digitsOf r
  | Decimal.D4 r => 52%N :: digitsOf r
  | Decimal.D5 r => 53%N :: digitsOf r
  | Decimal.D6 r => 54%N :: digitsOf r
  | Decimal.D7 r => 55%N :: digitsOf r
  | Decimal.D8 r => 56%N :: digitsOf r
  | Decimal.D9 r => 57%N :: digitsOf r
  end.

(** The decimal numeral of an integer as a user types it: [-] for a
    negative one, then the digits with no leading zero. *)
Definition decimal (z : Z) : jsstring :=
  match Z.to_int z with
  | Decimal.Pos d => digitsOf d
  | Decimal.Neg d => 45%N :: digitsOf d
  end.

(** [s.startsWith(prefix)] *)
Fixpoint startsWith (prefix s : jsstring) : bool :=
  match prefix, s with
  | [], _ => true
  | _ :: _, [] => false
  | p :: prefix', c :: s' => (c =? p)%N && startsWith prefix' s'
  end.

(** [pieces.join(sep)] for a separator of any length. *)
Fixpoint joinWith (sep : jsstring) (pieces : list jsstring) : jsstring :=
  match pieces with
  | [] => []
  | [w] => w
  | w :: ws => w ++ sep ++ joinWith sep ws
  end.

End JS.

(** ** The client: frontend/src/App.js *)

Module App.
Import JS.

(** The routes of the API the client calls; [url] is the template string
    the source builds for each of them on top of the constant [API]. *)
Inductive endpoint :=
| AuthMe
| Tasks
| TasksMy
| TaskById (taskId : jsstring)
| TaskAssign (taskId : jsstring)
| TaskValidate (taskId : jsstring)
| UsersProfile.

Definition url (API : jsstring) (e : endpoint) : jsstring :=
  match e with
  | AuthMe => API ++ js "/auth/me"
  | Tasks => API ++ js "/tasks"
  | TasksMy => API ++ js "/tasks/my"
  | TaskById taskId => API ++ js "/tasks/" ++ taskId
  | TaskAssign taskId => API ++ js "/tasks/" ++ taskId ++ js "/assign"
  | TaskValidate taskId => API ++ js "/tasks/" ++ taskId ++ js "/validate"
  | UsersProfile => API ++ js "/users/profile"
  end.

(** A task as the server sends it; [None] is [null] or [undefined]. *)
Module Task.
Record t := {
  id : jsstring;
  created_by : jsstring;
  assigned_to : option jsstring;
  status : jsstring;
  task_type : jsstring;
  title : jsstring;
  description : jsstring;
  duration : Z;
  credits_offered : Z;
  location : jsstring;
  skills_required : list jsstring;
  before_photo : option jsstring;
  after_photo : option jsstring
}.
End Task.

Module User.
Record t := {
  id : jsstring;
  name : jsstring;
  email : jsstring;
  time_credits : Z;
  skills : list jsstring;
  location : jsstring;
  availability : jsstring
}.
End User.

(** What an awaited axios call comes back with: the response data, or a
    rejection carrying [error.response?.data?.detail] when there is one. *)
Inductive response (A : Type) :=
| Resolved (data : A)
| Rejected (detail : option jsstring).
Arguments Resolved {A} data.
Arguments Rejected {A} detail.

(** [detail || fallback] *)
Definition or_string (detail : option jsstring) (fallback : jsstring) : jsstring :=
  match detail with
  | Some s => if Boolean s then s else fallback
  | None => fallback
  end.

(** Request bodies. *)
Record TaskBody := {
  body_title : jsstring;
  body_description : jsstring;
  body_duration : number;
  body_credits_offered : number;
  body_task_type : jsstring;
  body_skills_required : list jsstring;
  body_location : jsstring
}.

Record ProfileBody := {
  body_name : jsstring;
  body_skills : list jsstring;
  body_profile_location : jsstring;
  body_availability : jsstring
}.

Inductive body :=
| NoBody
| CreateBody (b : TaskBody)
| UpdateProfileBody (b : ProfileBody).

Inductive toastKind := success | error | warning.

(** What a handler does, in program order. *)
Inductive action :=
| Get (e : endpoint) (params : gmap jsstring jsstring)
| Post (e : endpoint) (b : body)
| Put (e : endpoint) (b : body)
| toast (kind : toastKind) (message : jsstring)
| navigate (path : jsstring)
| setLoadingTasks (b : bool)
| setTasks (data : list Task.t)
| setLoading (b : bool)
| setTask (task : Task.t)
| mergeUser (data : User.t)
| onUpdate
| onTaskCreated
| refetchTask.

Definition isRequest (a : action) : bool :=
  match a with
  | Get _ _ | Post _ _ | Put _ _ => true
  | _ => false
  end.

(** The requests among the actions of a handler. *)
Definition requests (l : list action) : list action :=
  List.filter isRequest l.

Module DashboardLayout.

(** Lines 190-191: [{ status: 'open', ...filters }], then the deletion of
    [taskType] when [filters.taskType === 'all']. *)
Definition params (filters : gmap jsstring jsstring) : gmap jsstring jsstring :=
  let params := filters ∪ {[ js "status" := js "open" ]} in
  if bool_decide (filters !! js "taskType" = Some (js "all"))
  then delete (js "taskType") params
  else params.

Definition loadTasks (filters : gmap jsstring jsstring)
    (r : response (list Task.t)) : list action :=
  [setLoadingTasks true; Get Tasks (params filters)]
  ++ match r with
     | Resolved data => [setTasks data]
     | Rejected _ => [toast error (js "Failed to load explore tasks.")]
     end
  ++ [setLoadingTasks false].

(** [loadTasks] up to its [await], and from the answer on. *)
Definition loadTasksBegin (filters : gmap jsstring jsstring) : list action :=
  [setLoadingTasks true; Get Tasks (params filters)].

Definition loadTasksResume (r : response (list Task.t)) : list action :=
  match r with
  | Resolved data => [setTasks data]
  | Rejected _ => [toast error (js "Failed to load explore tasks.")]
  end
  ++ [setLoadingTasks false].

(** The actions of the layout: the ones above, and [setMyTasks]. *)
Inductive layoutAction :=
| common (a : action)
| setMyTasks (data : list Task.t).

(** [loadMyTasks] (lines 198-205), up to its [await] and from the answer
    on. *)
Definition loadMyTasksBegin : list layoutAction :=
  [common (setLoadingTasks true); common (Get TasksMy ∅)].

Definition loadMyTasksResume (r : response (list Task.t)) : list layoutAction :=
  match r with
  | Resolved data => [setMyTasks data]
  | Rejected _ => [common (toast error (js "Failed to load your tasks."))]
  end
  ++ [common (setLoadingTasks false)].

Definition loadMyTasks (r : response (list Task.t)) : list layoutAction :=
  loadMyTasksBegin ++ loadMyTasksResume r.

(** The state of the layout (lines 177-179) and what an action does to
    it. *)
Record state := {
  tasks : list Task.t;
  myTasks : list Task.t;
  loadingTasks : bool
}.

Definition update (a : layoutAction) (s : state) : state :=
  match a with
  | common (setLoadingTasks b) =>
      {| tasks := tasks s; myTasks := myTasks s; loadingTasks := b |}
  | common (setTasks data) =>
      {| tasks := data; myTasks := myTasks s; loadingTasks := loadingTasks s |}
  | setMyTasks data =>
      {| tasks := tasks s; myTasks := data; loadingTasks := loadingTasks s |}
  | common _ => s
  end.

Definition updates (l : list layoutAction) (s : state) : state :=
  fold_left (fun s a => update a s) l s.

(** [refreshAllTasks] (lines 207-210) calls [loadTasks()] and
    [loadMyTasks()] one after the other: each runs up to its [await], and
    the two answers then arrive in one order or the other. *)
Inductive arrival := tasksFirst | myTasksFirst.

Definition refreshAllTasksBegin : list layoutAction :=
  (common <$> loadTasksBegin ∅) ++ loadMyTasksBegin.

Definition refreshAllTasks (o : arrival) (r1 r2 : response (list Task.t))
  : list layoutAction :=
  refreshAllTasksBegin
  ++ match o with
     | tasksFirst => (common <$> loadTasksResume r1) ++ loadMyTasksResume r2
     | myTasksFirst => loadMyTasksResume r2 ++ (common <$> loadTasksResume r1)
     end.

End DashboardLayout.

Module BrowseTasks.

Record filters := { searchTerm : jsstring; taskType : jsstring }.

(** [useState({ searchTerm: '', taskType: 'all' })] *)
Definition initial : filters := {| searchTerm := []; taskType := js "all" |}.

(** The two [setFilters] updates of line 300 and line 301. *)
Definition onSearchChange (value : jsstring) (prev : filters) : filters :=
  {| searchTerm := value; taskType := taskType prev |}.
Definition onValueChange (v : jsstring) (prev : filters) : filters :=
  {| searchTerm := searchTerm prev; taskType := v |}.

(** The object built on line 290:
    [{ title: filters.searchTerm, task_type: filters.taskType }]. *)
Definition effectFilters (f : filters) : gmap jsstring jsstring :=
  <[js "title" := searchTerm f]> (<[js "task_type" := taskType f]> ∅).

(** The state object itself, which line 303 hands to [loadTasks]. *)
Definition stateFilters (f : filters) : gmap jsstring jsstring :=
  <[js "searchTerm" := searchTerm f]> (<[js "taskType" := taskType f]> ∅).

(** The body of the timer of the effect (lines 288-293). *)
Definition effect (f : filters) (r : response (list Task.t)) : list action :=
  DashboardLayout.loadTasks (effectFilters f) r.

(** [onAssign={() => loadTasks(filters)}] *)
Definition onAssign (f : filters) (r : response (list Task.t)) : list action :=
  DashboardLayout.loadTasks (stateFilters f) r.

End BrowseTasks.

Module CreateTask.

Record formData := {
  title : jsstring;
  description : jsstring;
  duration : number;
  credits_offered : number;
  task_type : jsstring;
  skills_required : jsstring;
  location : jsstring
}.

(** The initial state of the form (line 328). *)
Definition initial : formData :=
  {| title := []; description := []; duration := Num 30;
     credits_offered := Num 30; task_type := js "request";
     skills_required := []; location := [] |}.

(** [onChange] of the title input (line 350). *)
Definition onTitleChange (value : jsstring) (p : formData) : formData :=
  {| title := value; description := description p; duration := duration p;
     credits_offered := credits_offered p; task_type := task_type p;
     skills_required := skills_required p; location := location p |}.

(** [onChange] of the duration input (line 354):
    [duration: parseInt(e.target.value) || 30]. *)
Definition onDurationChange (value : jsstring) (p : formData) : formData :=
  {| title := title p; description := description p;
     duration := or_number (parseInt value) (Num 30);
     credits_offered := credits_offered p; task_type := task_type p;
     skills_required := skills_required p; location := location p |}.

(** [onChange] of the credits input (line 356):
    [credits_offered: parseInt(e.target.value) || 30]. *)
Definition onCreditsChange (value : jsstring) (p : formData) : formData :=
  {| title := title p; description := description p; duration := duration p;
     credits_offered := or_number (parseInt value) (Num 30);
     task_type := task_type p;
     skills_required := skills_required p; location := location p |}.

(** [onChange] of the skills input (line 358). *)
Definition onSkillsChange (value : jsstring) (p : formData) : formData :=
  {| title := title p; description := description p; duration := duration p;
     credits_offered := credits_offered p; task_type := task_type p;
     skills_required := value; location := location p |}.

(** The object posted on line 336: the form data, with [skills_required]
    replaced by [split(',').map(s => s.trim()).filter(Boolean)]. *)
Definition requestBody (fd : formData) : TaskBody :=
  {| body_title := title fd;
     body_description := description fd;
     body_duration := duration fd;
     body_credits_offered := credits_offered fd;
     body_task_type := task_type fd;
     body_skills_required :=
       List.filter Boolean (List.map trim (split comma (skills_required fd)));
     body_location := location fd |}.

Definition handleSubmit (fd : formData) (r : response unit) : list action :=
  [setLoading true; Post Tasks (CreateBody (requestBody fd))]
  ++ match r with
     | Resolved _ =>
         [toast success (js "Task created successfully!"); onTaskCreated;
          navigate (js "/dashboard/my-tasks")]
     | Rejected detail =>
         [toast error (or_string detail (js "Failed to create task"))]
     end
  ++ [setLoading false].

(** The constraints the inputs declare.  [required]: the value is not
    empty.  A number input with [min] and [max]: the value is a number
    within the bounds (NaN and the infinities are no values of a number
    input: it shows empty). *)
Definition required (value : jsstring) : bool := Boolean value.

Definition inRange (min : Z) (max : option Z) (value : number) : bool :=
  match value with
  | NaN => false
  | Num z =>
      (min <=? z)%Z && match max with Some m => (z <=? m)%Z | None => true end
  | Infinity _ => false
  end.

(** Constraint validation of the form (lines 350-358): title, description
    and location are [required]; duration is a [required] number input with
    [min="15" max="60"]; credits a [required] number input with [min="1"];
    the skills input declares nothing. *)
Definition checkValidity (fd : formData) : bool :=
  required (title fd) && required (description fd)
  && inRange 15 (Some 60%Z) (duration fd)
  && inRange 1 None (credits_offered fd)
  && required (location fd).

(** [<form onSubmit={handleSubmit}>]: the browser fires [onSubmit] only
    when every input satisfies its constraints. *)
Definition submit (fd : formData) (r : response unit) : list action :=
  if checkValidity fd then handleSubmit fd r else [].

(** The remaining [onChange] handlers of the form (lines 351, 353, 357). *)
Definition onDescriptionChange (value : jsstring) (p : formData) : formData :=
  {| title := title p; description := value; duration := duration p;
     credits_offered := credits_offered p; task_type := task_type p;
     skills_required := skills_required p; location := location p |}.

Definition onTaskTypeChange (v : jsstring) (p : formData) : formData :=
  {| title := title p; description := description p; duration := duration p;
     credits_offered := credits_offered p; task_type := v;
     skills_required := skills_required p; location := location p |}.

Definition onLocationChange (value : jsstring) (p : formData) : formData :=
  {| title := title p; description := description p; duration := duration p;
     credits_offered := credits_offered p; task_type := task_type p;
     skills_required := skills_required p; location := value |}.

(** What the user does to the form: a change of one of its seven inputs. *)
Inductive change :=
| titleChange (value : jsstring)
| descriptionChange (value : jsstring)
| taskTypeChange (v : jsstring)
| durationChange (value : jsstring)
| creditsChange (value : jsstring)
| locationChange (value : jsstring)
| skillsChange (value : jsstring).

Definition onChange (e : change) (p : formData) : formData :=
  match e with
  | titleChange value => onTitleChange value p
  | descriptionChange value => onDescriptionChange value p
  | taskTypeChange v => onTaskTypeChange v p
  | durationChange value => onDurationChange value p
  | creditsChange value => onCreditsChange value p
  | locationChange value => onLocationChange value p
  | skillsChange value => onSkillsChange value p
  end.

(** The form after a sequence of changes, from its initial state. *)
Definition edited (changes : list change) : formData :=
  fold_left (fun p e => onChange e p) changes initial.

End CreateTask.

Module ProfileSettings.

Record formData := {
  name : jsstring;
  skills : jsstring;
  location : jsstring;
  availability : jsstring
}.

(** The object sent on line 377. *)
Definition requestBody (fd : formData) : ProfileBody :=
  {| body_name := name fd;
     body_skills :=
       List.filter Boolean (List.map trim (split comma (skills fd)));
     body_profile_location := location fd;
     body_availability := availability fd |}.

Definition handleSubmit (fd : formData) (r : response User.t) : list action :=
  [setLoading true; Put UsersProfile (UpdateProfileBody (requestBody fd))]
  ++ match r with
     | Resolved data => [mergeUser data; toast success (js "Profile updated!")]
     | Rejected _ => [toast error (js "Failed to update profile.")]
     end
  ++ [setLoading false].

(** The state the form starts from (line 368):
    [name: user.name || '', skills: user.skills?.join(', ') || '', ...]. *)
Definition initial (user : User.t) : formData :=
  {| name := User.name user;
     skills := joinWith (js ", ") (User.skills user);
     location := User.location user;
     availability := User.availability user |}.

End ProfileSettings.

Module TaskDetailPage.

(** [data.find(t => t.id === taskId)] *)
Definition findTask (taskId : jsstring) (data : list Task.t) : option Task.t :=
  List.find (fun t => strict_eq (Task.id t) taskId) data.

Definition fetchTask (taskId : jsstring) (r : response (list Task.t))
  : list action :=
  [setLoading true; Get TasksMy ∅]
  ++ match r with
     | Resolved data =>
         match findTask taskId data with
         | Some foundTask => [setTask foundTask]
         | None =>
             [toast error (js "Task not found or you don't have access.");
              navigate (js "/dashboard/my-tasks")]
         end
     | Rejected _ => [toast error (js "Failed to load task details.")]
     end
  ++ [setLoading false].

(** [!task.before_photo || !task.after_photo]: the guard of
    [handleValidation] and the [disabled] attribute of the button. *)
Definition photoMissing (task : Task.t) : bool :=
  negb (truthy (Task.before_photo task)) || negb (truthy (Task.after_photo task)).

Definition handleValidation (task : Task.t) (taskId : jsstring)
    (r : response unit) : list action :=
  if photoMissing task
  then [toast warning (js "Please upload both before and after photos.")]
  else
    Post (TaskValidate taskId) NoBody
    :: match r with
       | Resolved _ =>
           [toast success (js "Task submitted for validation!"); onUpdate;
            refetchTask]
       | Rejected detail =>
           [toast error (or_string detail (js "Validation failed."))]
       end.

Definition isTaskAssignee (task : Task.t) (user : User.t) : bool :=
  bool_decide (Task.assigned_to task = Some (User.id user)).

(** The upload card with the Complete Task button is rendered when
    [isTaskAssignee && task.status === 'assigned'] (line 456). *)
Definition showsCompleteButton (task : Task.t) (user : User.t) : bool :=
  isTaskAssignee task user && strict_eq (Task.status task) (js "assigned").

Definition completeDisabled (task : Task.t) : bool := photoMissing task.

(** A click on Complete Task: a button that is not rendered or is disabled
    does not run its handler. *)
Definition clickComplete (task : Task.t) (user : User.t) (taskId : jsstring)
    (r : response unit) : list action :=
  if showsCompleteButton task user && negb (completeDisabled task)
  then handleValidation task taskId r
  else [].

End TaskDetailPage.

Module TaskCard.

(** [onAssign] is the list of actions of the callback the card was given,
    when it was given one. *)
Definition handleAssign (task : Task.t) (onAssign : option (list action))
    (r : response unit) : list action :=
  Post (TaskAssign (Task.id task)) NoBody
  :: match r with
     | Resolved _ =>
         toast success (js "Task assigned successfully!")
         :: match onAssign with Some k => k | None => [] end
     | Rejected detail =>
         [toast error (or_string detail (js "Failed to assign task"))]
     end.

(** The Accept Task button is rendered when [task.status === 'open']
    (line 509). *)
Definition showsAcceptButton (task : Task.t) : bool :=
  strict_eq (Task.status task) (js "open").

(** A click on Accept Task. *)
Definition clickAccept (task : Task.t) (onAssign : option (list action))
    (r : response unit) : list action :=
  if showsAcceptButton task then handleAssign task onAssign r else [].

End TaskCard.

Module Sidebar.

(** The paths of [navItems] (lines 237-242). *)
Definition navItems : list jsstring :=
  [js "/dashboard"; js "/dashboard/explore"; js "/dashboard/my-tasks";
   js "/dashboard/profile"].

(** The condition under which an item gets the active style (line 249):
    [pathname.startsWith(item.path) && item.path !== '/dashboard'
     || pathname === '/dashboard' && item.path === '/dashboard']. *)
Definition isActive (pathname path : jsstring) : bool :=
  startsWith path pathname && negb (strict_eq path (js "/dashboard"))
  || strict_eq pathname (js "/dashboard") && strict_eq path (js "/dashboard").

Definition activeItems (pathname : jsstring) : list jsstring :=
  List.filter (isActive pathname) navItems.

End Sidebar.

Module DashboardHome.

(** [user.name.split(' ')[0]] (line 265). *)
Definition firstName (user : User.t) : jsstring :=
  match split 32 (User.name user) with
  | w :: _ => w
  | [] => []
  end.

(** The figures of the stat cards (lines 269-270). *)
Definition tasksCompleted (myTasks : list Task.t) : nat :=
  length (List.filter (fun t => strict_eq (Task.status t) (js "validated"))
            myTasks).

Definition tasksReceived (user : User.t) (myTasks : list Task.t) : nat :=
  length (List.filter
            (fun t => strict_eq (Task.status t) (js "validated")
                      && strict_eq (Task.created_by t) (User.id user))
            myTasks).

End DashboardHome.

Module MyTasks.

Inductive tab := created | doing.

(** Lines 312-314. *)
Definition tasksCreated (user : User.t) (myTasks : list Task.t) : list Task.t :=
  List.filter (fun task => strict_eq (Task.created_by task) (User.id user))
    myTasks.

Definition tasksDoing (user : User.t) (myTasks : list Task.t) : list Task.t :=
  List.filter
    (fun task => bool_decide (Task.assigned_to task = Some (User.id user)))
    myTasks.

Definition tasksToShow (activeTab : tab) (user : User.t)
    (myTasks : list Task.t) : list Task.t :=
  match activeTab with
  | created => tasksCreated user myTasks
  | doing => tasksDoing user myTasks
  end.

End MyTasks.

End App.

(** ** The task lifecycle and the time-credit ledger

    The client reaches these operations through /tasks,
    /tasks/{id}/assign and /tasks/{id}/validate; the definitions below
    follow sections 3 to 5 of the specification. *)

Module Core.
Import JS.

Definition UserId := nat.

Inductive TaskStatus := open | assigned | validated | cancelled.

Inductive Error :=
| ValidationError
| Forbidden
| InvalidState
| InsufficientBalance
| InvalidAmount
| SameAccount
| TransferFailed.

Inductive result (A : Type) :=
| Ok (a : A)
| Err (e : Error).
Arguments Ok {A} a.
Arguments Err {A} e.

#[global] Instance TaskStatus_eq_dec : EqDecision TaskStatus.
Proof. solve_decision. Defined.

(** Modelled from the spec: the Task record of the data model (section 3);
    the server's own record is not in the client. *)
Record Task := {
  owner : UserId;
  assignee : option UserId;
  title : jsstring;
  duration : Z;
  credits_offered : Z;
  status : TaskStatus;
  before_photo : option jsstring;
  after_photo : option jsstring
}.

(** Modelled from the spec: the fields of a create request that the
    bounds of section 4.2 are about. *)
Record Fields := {
  fields_title : jsstring;
  fields_duration : Z;
  fields_credits_offered : Z
}.

(** Modelled from the spec: the bounds [create] validates (section 4.2):
    duration in [15,60], credits_offered > 0, non-empty title. *)
Definition withinBounds (f : Fields) : bool :=
  (15 <=? fields_duration f)%Z && (fields_duration f <=? 60)%Z
  && (0 <? fields_credits_offered f)%Z
  && Boolean (fields_title f).

(** Modelled from the spec: [create(owner, fields)] of the Task Store
    (section 4.2), which returns a new task with status open or fails with
    ValidationError. *)
Definition create (o : UserId) (f : Fields) : result Task :=
  if withinBounds f
  then Ok {| owner := o; assignee := None; title := fields_title f;
             duration := fields_duration f;
             credits_offered := fields_credits_offered f;
             status := open; before_photo := None; after_photo := None |}
  else Err ValidationError.

(** Modelled from the spec: the only mutator of [status] (section 4.2). *)
Definition setStatus (s : TaskStatus) (t : Task) : Task :=
  {| owner := owner t; assignee := assignee t; title := title t;
     duration := duration t; credits_offered := credits_offered t;
     status := s; before_photo := before_photo t;
     after_photo := after_photo t |}.

(** Modelled from the spec: the write of [assignee] that [assign] performs
    together with the status change (section 4.3). *)
Definition setAssignee (a : UserId) (t : Task) : Task :=
  {| owner := owner t; assignee := Some a; title := title t;
     duration := duration t; credits_offered := credits_offered t;
     status := status t; before_photo := before_photo t;
     after_photo := after_photo t |}.

(** Modelled from the spec: the invariant of the data model (section 3)
    that ties the two fields an assignment writes: [assignee] is set iff
    the status is assigned or validated. *)
Definition consistent (t : Task) : bool :=
  match status t with
  | assigned | validated => bool_decide (is_Some (assignee t))
  | open | cancelled => bool_decide (assignee t = None)
  end.

(** *** Ledger *)

(** Modelled from the spec: the Ledger (section 4.1) holds one balance per
    user; a user without an entry holds nothing. *)
Definition balance (l : gmap UserId Z) (u : UserId) : Z := default 0%Z (l !! u).

(** Modelled from the spec: [transfer(from, to, amount)] (section 4.1),
    with its three failures in the order the contract lists them. *)
Definition transfer (from to : UserId) (amount : Z) (l : gmap UserId Z)
  : result (gmap UserId Z) :=
  if (balance l from <? amount)%Z then Err InsufficientBalance
  else if (amount <=? 0)%Z then Err InvalidAmount
  else if bool_decide (from = to) then Err SameAccount
  else Ok (<[to := (balance l to + amount)%Z]>
           (<[from := (balance l from - amount)%Z]> l)).

(** *** Lifecycle engine: assign *)

(** Modelled from the spec: [assign] is a compare-and-set transition
    (section 4.3): read the current status and check the preconditions,
    then perform the change and fail if the status changed since it was
    read.  The two halves are the atomic steps of a call. *)
Definition assignRead (actor : UserId) (t : Task) : result TaskStatus :=
  if bool_decide (status t = open)
  then if bool_decide (actor = owner t) then Err Forbidden else Ok (status t)
  else Err InvalidState.

(** Modelled from the spec: the second half of [assign] (section 4.3):
    set assignee and status together, unless the status is no longer the
    one that was read. *)
Definition assignCommit (actor : UserId) (seen : TaskStatus) (t : Task)
  : result Task :=
  if bool_decide (status t = seen)
  then Ok (setStatus assigned (setAssignee actor t))
  else Err InvalidState.

(** Modelled from the spec: [assign(taskId, actorId)] (section 4.3) as one
    call running alone. *)
Definition assign (actor : UserId) (t : Task) : result Task :=
  match assignRead actor t with
  | Ok seen => assignCommit actor seen t
  | Err e => Err e
  end.

(** Modelled from the spec: calls that run concurrently on one task
    (section 5).  Each call is at one of three points, and a schedule
    picks which call takes its next atomic step. *)
Inductive Call :=
| Pending
| Staged (seen : TaskStatus)
| Finished (r : result unit).

Definition callStep (actor : UserId) (c : Call) (t : Task) : Call * Task :=
  match c with
  | Pending =>
      match assignRead actor t with
      | Ok seen => (Staged seen, t)
      | Err e => (Finished (Err e), t)
      end
  | Staged seen =>
      match assignCommit actor seen t with
      | Ok t' => (Finished (Ok tt), t')
      | Err e => (Finished (Err e), t)
      end
  | Finished r => (Finished r, t)
  end.

(** The shared task and the calls in flight, each with its actor. *)
Definition System : Type := Task * list (UserId * Call).

Definition step (i : nat) (s : System) : System :=
  match s.2 !! i with
  | Some (actor, c) =>
      let '(c', t') := callStep actor c s.1 in
      (t', <[i := (actor, c')]> s.2)
  | None => s
  end.

Definition run (schedule : list nat) (s : System) : System :=
  fold_left (fun s i => step i s) schedule s.

Definition start (t : Task) (actors : list UserId) : System :=
  (t, (fun a => (a, Pending)) <$> actors).

Definition isFinished (c : UserId * Call) : bool :=
  match c.2 with
  | Finished _ => true
  | _ => false
  end.

Definition allFinished (s : System) : bool := forallb isFinished s.2.

(** The point a call is at, counted in atomic steps taken. *)
Definition stage (c : Call) : nat :=
  match c with
  | Pending => 0
  | Staged _ => 1
  | Finished _ => 2
  end.

(** A call that has not committed: it has not started, or it has read the
    status open. *)
Definition undecided (c : Call) : Prop := c = Pending \/ c = Staged open.

(** A call that cannot win any more: it is undecided, or it has returned
    InvalidState. *)
Definition lost (c : Call) : Prop :=
  undecided c \/ c = Finished (Err InvalidState).

(** What every state of a race on a task of owner [o] satisfies: either
    the task is open and unassigned and no call has committed, or it is
    assigned to the actor of the one call that returned Ok. *)
Definition raceInvariant (o : UserId) (s : System) : Prop :=
  owner s.1 = o
  /\ Forall (fun e => e.1 <> o) s.2
  /\ ((status s.1 = open /\ assignee s.1 = None
       /\ Forall (fun e => undecided e.2) s.2)
      \/ (status s.1 = assigned
          /\ exists i a,
               s.2 !! i = Some (a, Finished (Ok tt))
               /\ assignee s.1 = Some a
               /\ forall j e, j <> i -> s.2 !! j = Some e -> lost e.2)).

(** *** Lifecycle engine: validate *)

(** Modelled from the spec: the Verification Gate (section 4.4): both photo
    slots non-empty. *)
Definition accepts (t : Task) : bool :=
  truthy (before_photo t) && truthy (after_photo t).

(** What [validate] works on: the task record and the ledger. *)
Record World := { task : Task; ledger : gmap UserId Z }.

(** Operations that read and write the world and may fail. *)
Definition M (A : Type) : Type := World -> result A * World.

Definition ret {A} (a : A) : M A := fun w => (Ok a, w).
Definition fail {A} (e : Error) : M A := fun w => (Err e, w).
Definition bind {A B} (m : M A) (k : A -> M B) : M B :=
  fun w =>
    match m w with
    | (Ok a, w') => k a w'
    | (Err e, w') => (Err e, w')
    end.
Definition guard (b : bool) (e : Error) : M unit :=
  if b then ret tt else fail e.

Notation "'let*' x ':=' m 'in' k" := (bind m (fun x => k))
  (at level 10, x name, m at level 100, k at level 200).
Notation "'run*' m 'in' k" := (bind m (fun _ => k))
  (at level 10, m at level 100, k at level 200).

(** The atomic unit: the writes of [m] are kept only when [m] succeeds. *)
Definition atomically {A} (m : M A) : M A :=
  fun w =>
    match m w with
    | (Ok a, w') => (Ok a, w')
    | (Err e, _) => (Err e, w)
    end.

Definition readTask : M Task := fun w => (Ok (task w), w).

Definition writeStatus (s : TaskStatus) : M unit :=
  fun w => (Ok tt, {| task := setStatus s (task w); ledger := ledger w |}).

(** Modelled from the spec: the ledger transfer as a step of the engine
    (section 4.3); a failure of the ledger surfaces as TransferFailed. *)
Definition ledgerTransfer (from to : UserId) (amount : Z) : M unit :=
  fun w =>
    match transfer from to amount (ledger w) with
    | Ok l' => (Ok tt, {| task := task w; ledger := l' |})
    | Err _ => (Err TransferFailed, w)
    end.

(** Modelled from the spec: the steps of [validate] (section 4.3), in the
    order the specification gives them: the preconditions, then (a) the
    status change, then (b) the transfer from owner to assignee. *)
Definition validateSteps (actor : UserId) : M unit :=
  let* t := readTask in
  run* guard (bool_decide (status t = assigned)) InvalidState in
  run* guard (bool_decide (assignee t = Some actor)) Forbidden in
  run* guard (accepts t) InvalidState in
  run* writeStatus validated in
  ledgerTransfer (owner t) actor (credits_offered t).

(** Modelled from the spec: [validate(taskId, actorId)], the steps above as
    a single atomic unit. *)
Definition validate (actor : UserId) : M unit :=
  atomically (validateSteps actor).

End Core.

(** ** Sample data *)

Module Sample.
Import JS App.

(** An open task created by user u1, and that user. *)
Definition ownTask : Task.t :=
  {| Task.id := js "t1"; Task.created_by := js "u1";
     Task.assigned_to := None; Task.status := js "open";
     Task.task_type := js "request"; Task.title := js "Walk my dog";
     Task.description := js "A walk"; Task.duration := 30;
     Task.credits_offered := 30; Task.location := js "Central Park";
     Task.skills_required := []; Task.before_photo := None;
     Task.after_photo := None |}.

Definition creator : User.t :=
  {| User.id := js "u1"; User.name := js "Ann"; User.email := js "ann@example.com";
     User.time_credits := 100; User.skills := []; User.location := [];
     User.availability := [] |}.

(** The same task once user u2 has accepted it and uploaded the before
    photo only. *)
Definition halfDocumented : Task.t :=
  {| Task.id := js "t1"; Task.created_by := js "u1";
     Task.assigned_to := Some (js "u2"); Task.status := js "assigned";
     Task.task_type := js "request"; Task.title := js "Walk my dog";
     Task.description := js "A walk"; Task.duration := 30;
     Task.credits_offered := 30; Task.location := js "Central Park";
     Task.skills_required := [];
     Task.before_photo := Some (js "data:image/png;base64,AAAA");
     Task.after_photo := None |}.

(** The create form with a skills text as a user would type it. *)
Definition skillsForm : CreateTask.formData :=
  CreateTask.onSkillsChange (js " Dog walking, ,Punctual ") CreateTask.initial.

(** An assigned task with both photos, of owner 1 and assignee 2, that
    offers 30 credits; the owner holds 10 in one world and 100 in the other. *)
Definition walk : Core.Task :=
  {| Core.owner := 1; Core.assignee := Some 2; Core.title := js "Walk my dog";
     Core.duration := 30; Core.credits_offered := 30;
     Core.status := Core.assigned;
     Core.before_photo := Some (js "before.png");
     Core.after_photo := Some (js "after.png") |}.

Definition poorOwner : Core.World :=
  {| Core.task := walk; Core.ledger := <[1 := 10%Z]> (<[2 := 0%Z]> ∅) |}.

Definition richOwner : Core.World :=
  {| Core.task := walk; Core.ledger := <[1 := 100%Z]> (<[2 := 0%Z]> ∅) |}.

(** The same task while it is still open. *)
Definition openWalk : Core.Task :=
  {| Core.owner := 1; Core.assignee := None; Core.title := js "Walk my dog";
     Core.duration := 30; Core.credits_offered := 30;
     Core.status := Core.open;
     Core.before_photo := None; Core.after_photo := None |}.

Definition goodFields : Core.Fields :=
  {| Core.fields_title := js "Walk my dog"; Core.fields_duration := 30;
     Core.fields_credits_offered := 30 |}.

Definition longFields : Core.Fields :=
  {| Core.fields_title := js "Walk my dog"; Core.fields_duration := 100;
     Core.fields_credits_offered := 30 |}.

(** A user with two skills, and a profile form whose skills text was typed
    with stray blanks and an empty entry. *)
Definition gardener : User.t :=
  {| User.id := js "u2"; User.name := js "Bob Stone";
     User.email := js "bob@example.com"; User.time_credits := 0;
     User.skills := [js "Gardening"; js "Dog walking"];
     User.location := []; User.availability := [] |}.

Definition typedProfile : ProfileSettings.formData :=
  {| ProfileSettings.name := js "Bob Stone";
     ProfileSettings.skills := js " Gardening, ,Dog walking ";
     ProfileSettings.location := []; ProfileSettings.availability := [] |}.

(** The task of user u1 once user u2 has uploaded both photos. *)
Definition documented : Task.t :=
  {| Task.id := js "t1"; Task.created_by := js "u1";
     Task.assigned_to := Some (js "u2"); Task.status := js "assigned";
     Task.task_type := js "request"; Task.title := js "Walk my dog";
     Task.description := js "A walk"; Task.duration := 30;
     Task.credits_offered := 30; Task.location := js "Central Park";
     Task.skills_required := [];
     Task.before_photo := Some (js "data:image/png;base64,AAAA");
     Task.after_photo := Some (js "data:image/png;base64,BBBB") |}.

(** A second task, created by user u2 and still open. *)
Definition otherTask : Task.t :=
  {| Task.id := js "t2"; Task.created_by := js "u2";
     Task.assigned_to := None; Task.status := js "open";
     Task.task_type := js "offer"; Task.title := js "Gardening";
     Task.description := js "Weeding"; Task.duration := 45;
     Task.credits_offered := 45; Task.location := js "Main Street";
     Task.skills_required := [js "Gardening"]; Task.before_photo := None;
     Task.after_photo := None |}.

(** A filter object that brings its own status. *)
Definition assignedFilter : gmap jsstring jsstring :=
  <[js "status" := js "assigned"]> (<[js "title" := js "dog"]> ∅).

End Sample.

(** * Properties *)

Import JS App.

(** ** The parameters of the task-list request *)

Section LoadTasks.

Implicit Types filters : gmap jsstring jsstring.

Lemma params_status filters :
  filters !! js "status" = None ->
  DashboardLayout.params filters !! js "status" = Some (js "open").
Proof.
  intros Hnone. unfold DashboardLayout.params.
  assert (Hopen : (filters ∪ {[js "status" := js "open"]}) !! js "status"
                  = Some (js "open")).
  { rewrite lookup_union_r by exact Hnone. apply lookup_singleton_eq. }
  case_bool_decide; [|exact Hopen].
  rewrite lookup_delete_ne by discriminate. exact Hopen.
Qed.

Lemma params_no_taskType filters :
  filters !! js "taskType" = None ->
  DashboardLayout.params filters = filters ∪ {[js "status" := js "open"]}.
Proof.
  intros Hnone. unfold DashboardLayout.params.
  rewrite Hnone. case_bool_decide; [discriminate|reflexivity].
Qed.

Lemma loadTasks_requests filters r :
  requests (DashboardLayout.loadTasks filters r)
  = [Get Tasks (DashboardLayout.params filters)].
Proof. destruct r; reflexivity. Qed.

Lemma effectFilters_status f : BrowseTasks.effectFilters f !! js "status" = None.
Proof.
  unfold BrowseTasks.effectFilters.
  rewrite !lookup_insert_ne by discriminate. apply lookup_empty.
Qed.

Lemma effectFilters_taskType f :
  BrowseTasks.effectFilters f !! js "taskType" = None.
Proof.
  unfold BrowseTasks.effectFilters.
  rewrite !lookup_insert_ne by discriminate. apply lookup_empty.
Qed.

Lemma stateFilters_status f : BrowseTasks.stateFilters f !! js "status" = None.
Proof.
  unfold BrowseTasks.stateFilters.
  rewrite !lookup_insert_ne by discriminate. apply lookup_empty.
Qed.

(** C6.  Whatever the search term and the type selection, both filter
    objects the explore page hands to [loadTasks] (the one of its effect
    and the one of the refresh after an accept) lack the key [status], and
    the one request [loadTasks] then issues is a GET on the task list whose
    parameters hold [status = 'open']. *)
Theorem explore_requests_open_tasks (f : BrowseTasks.filters)
    (r : response (list Task.t)) :
  (BrowseTasks.effectFilters f !! js "status" = None
   /\ exists params,
        requests (BrowseTasks.effect f r) = [Get Tasks params]
        /\ params !! js "status" = Some (js "open"))
  /\ (BrowseTasks.stateFilters f !! js "status" = None
      /\ exists params,
           requests (BrowseTasks.onAssign f r) = [Get Tasks params]
           /\ params !! js "status" = Some (js "open")).
Proof.
  split; (split; [| eexists; split; [apply loadTasks_requests|]]).
  - apply effectFilters_status.
  - apply params_status, effectFilters_status.
  - apply stateFilters_status.
  - apply params_status, stateFilters_status.
Qed.

(** C9.  After any type selection [v] on the explore page, 'all' included,
    the request of the filter effect carries [task_type = v] verbatim: the
    object the effect builds has no key [taskType], so the deletion in
    [loadTasks] does not apply and the parameters are exactly the filters
    plus [status = 'open']. *)
Theorem explore_sends_task_type_verbatim (prev : BrowseTasks.filters)
    (v : jsstring) (r : response (list Task.t)) :
  let f := BrowseTasks.onValueChange v prev in
  let sent := BrowseTasks.effectFilters f ∪ {[js "status" := js "open"]} in
  requests (BrowseTasks.effect f r) = [Get Tasks sent]
  /\ sent !! js "task_type" = Some v
  /\ (v = js "all" -> sent !! js "task_type" = Some (js "all")).
Proof.
  intros f sent.
  assert (Htype : sent !! js "task_type" = Some v).
  { unfold sent. apply lookup_union_Some_l. unfold BrowseTasks.effectFilters.
    rewrite lookup_insert_ne by discriminate. apply lookup_insert_eq. }
  split; [|split].
  - unfold BrowseTasks.effect. rewrite loadTasks_requests.
    by rewrite params_no_taskType by apply effectFilters_taskType.
  - exact Htype.
  - intros ->. exact Htype.
Qed.

Lemma explore_sends_task_type_verbatim_all :
  let f := BrowseTasks.onValueChange (js "all") BrowseTasks.initial in
  (BrowseTasks.effectFilters f ∪ {[js "status" := js "open"]}) !! js "task_type"
  = Some (js "all").
Proof.
  intros f.
  exact (proj2 (proj2 (explore_sends_task_type_verbatim
                         BrowseTasks.initial (js "all") (Resolved [])))
               eq_refl).
Defined.

(** The refresh after an accept passes the state object instead, whose key
    is [taskType]: there the deletion applies for 'all', and neither
    [task_type] nor [title] is sent. *)
Lemma onAssign_params (f : BrowseTasks.filters) :
  DashboardLayout.params (BrowseTasks.stateFilters f) !! js "task_type" = None
  /\ (BrowseTasks.taskType f = js "all" ->
      DashboardLayout.params (BrowseTasks.stateFilters f) !! js "taskType" = None).
Proof.
  unfold DashboardLayout.params, BrowseTasks.stateFilters. split.
  - case_bool_decide.
    + rewrite lookup_delete_ne by discriminate.
      apply lookup_union_None. split.
      * rewrite !lookup_insert_ne by discriminate. apply lookup_empty.
      * by rewrite lookup_singleton_ne.
    + apply lookup_union_None. split.
      * rewrite !lookup_insert_ne by discriminate. apply lookup_empty.
      * by rewrite lookup_singleton_ne.
  - intros Hall. rewrite bool_decide_true.
    + apply lookup_delete_eq.
    + rewrite lookup_insert_ne by discriminate.
      rewrite lookup_insert_eq. by rewrite Hall.
Qed.

End LoadTasks.

(** ** The task detail page *)

Section TaskDetail.

Lemma truthy_nonempty (v : option jsstring) :
  truthy v = true <-> exists s, v = Some s /\ s <> [].
Proof.
  destruct v as [[|c s]|]; simpl; split; try discriminate.
  - intros (s & Hs & Hne). destruct Hne. congruence.
  - intros _. by exists (c :: s).
  - reflexivity.
  - intros (s' & Hs & _). discriminate.
Qed.

Lemma photoMissing_false (task : Task.t) :
  TaskDetailPage.photoMissing task = false <->
  truthy (Task.before_photo task) = true /\ truthy (Task.after_photo task) = true.
Proof.
  unfold TaskDetailPage.photoMissing.
  destruct (truthy (Task.before_photo task)), (truthy (Task.after_photo task));
    simpl; intuition discriminate.
Qed.

(** C7.  [fetchTask] issues one request whatever the route id and the
    answer: the GET of the whole collection /tasks/my, never a request on
    /tasks/{id}.  From the list it gets it selects an element whose id is
    the route parameter whenever there is one, and when no element matches
    it reports the task as not found and navigates to /dashboard/my-tasks. *)
Theorem fetchTask_scans_collection (taskId : jsstring) (data : list Task.t) :
  (forall r, requests (TaskDetailPage.fetchTask taskId r) = [Get TasksMy ∅])
  /\ ((exists t, In t data /\ Task.id t = taskId) ->
      exists foundTask,
        In foundTask data /\ Task.id foundTask = taskId
        /\ TaskDetailPage.fetchTask taskId (Resolved data)
           = [setLoading true; Get TasksMy ∅; setTask foundTask;
              setLoading false])
  /\ ((forall t, In t data -> Task.id t <> taskId) ->
      TaskDetailPage.fetchTask taskId (Resolved data)
      = [setLoading true; Get TasksMy ∅;
         toast error (js "Task not found or you don't have access.");
         navigate (js "/dashboard/my-tasks"); setLoading false]).
Proof.
  split; [|split].
  - intros [d|d]; unfold TaskDetailPage.fetchTask; [|reflexivity].
    by destruct (TaskDetailPage.findTask taskId d).
  - intros (t & Hin & Hid).
    unfold TaskDetailPage.fetchTask, TaskDetailPage.findTask.
    destruct (find _ data) as [found|] eqn:Hfind.
    + apply find_some in Hfind as [Hin' Heq].
      exists found. split; [exact Hin'|]. split; [|reflexivity].
      unfold strict_eq in Heq. by apply bool_decide_eq_true in Heq.
    + exfalso. apply (find_none _ _ Hfind) in Hin.
      unfold strict_eq in Hin. by apply bool_decide_eq_false in Hin.
  - intros Hnone.
    unfold TaskDetailPage.fetchTask, TaskDetailPage.findTask.
    destruct (find _ data) as [found|] eqn:Hfind; [|reflexivity].
    apply find_some in Hfind as [Hin Heq].
    unfold strict_eq in Heq. apply bool_decide_eq_true in Heq.
    by destruct (Hnone _ Hin).
Qed.

Lemma fetchTask_scans_collection_sample :
  (exists foundTask,
     In foundTask [Sample.ownTask] /\ Task.id foundTask = js "t1"
     /\ TaskDetailPage.fetchTask (js "t1") (Resolved [Sample.ownTask])
        = [setLoading true; Get TasksMy ∅; setTask foundTask;
           setLoading false])
  /\ TaskDetailPage.fetchTask (js "t2") (Resolved [Sample.ownTask])
     = [setLoading true; Get TasksMy ∅;
        toast error (js "Task not found or you don't have access.");
        navigate (js "/dashboard/my-tasks"); setLoading false].
Proof.
  split.
  - apply (fetchTask_scans_collection (js "t1") [Sample.ownTask]).
    exists Sample.ownTask. split; [left; reflexivity | reflexivity].
  - apply (fetchTask_scans_collection (js "t2") [Sample.ownTask]).
    intros t [<-|[]]. vm_compute. discriminate.
Defined.

(** C3.  [handleValidation] posts the validate request only for a task
    whose [before_photo] and [after_photo] are both non-empty strings, and
    then it does post it.  When either is missing it only shows a warning,
    the Complete Task button is disabled, and a click on it does nothing. *)
Theorem validation_needs_both_photos (task : Task.t) (user : User.t)
    (taskId : jsstring) (r : response unit) :
  let both :=
    (exists b, Task.before_photo task = Some b /\ b <> [])
    /\ (exists a, Task.after_photo task = Some a /\ a <> []) in
  (both ->
   exists rest,
     TaskDetailPage.handleValidation task taskId r
     = Post (TaskValidate taskId) NoBody :: rest)
  /\ (forall a, In a (TaskDetailPage.handleValidation task taskId r) ->
       isRequest a = true -> both)
  /\ (~ both ->
      TaskDetailPage.handleValidation task taskId r
      = [toast warning (js "Please upload both before and after photos.")]
      /\ TaskDetailPage.completeDisabled task = true
      /\ TaskDetailPage.clickComplete task user taskId r = []).
Proof.
  intros both.
  assert (Hboth : TaskDetailPage.photoMissing task = false <-> both).
  { rewrite photoMissing_false. unfold both. by rewrite !truthy_nonempty. }
  split; [|split].
  - intros Hb. apply Hboth in Hb.
    unfold TaskDetailPage.handleValidation. rewrite Hb. by eexists.
  - intros a Hin Hreq. apply Hboth.
    unfold TaskDetailPage.handleValidation in Hin.
    destruct (TaskDetailPage.photoMissing task); [|reflexivity].
    destruct Hin as [<-|[]]. discriminate.
  - intros Hnot.
    assert (Hmiss : TaskDetailPage.photoMissing task = true).
    { destruct (TaskDetailPage.photoMissing task) eqn:E; [reflexivity|].
      destruct Hnot. by apply Hboth. }
    unfold TaskDetailPage.clickComplete, TaskDetailPage.completeDisabled,
      TaskDetailPage.handleValidation.
    rewrite Hmiss. split; [reflexivity|]. split; [reflexivity|].
    by rewrite andb_false_r.
Qed.

Lemma validation_needs_both_photos_sample :
  TaskDetailPage.handleValidation Sample.halfDocumented (js "t1") (Resolved tt)
  = [toast warning (js "Please upload both before and after photos.")]
  /\ TaskDetailPage.completeDisabled Sample.halfDocumented = true
  /\ TaskDetailPage.clickComplete Sample.halfDocumented Sample.creator
       (js "t1") (Resolved tt) = [].
Proof.
  apply (validation_needs_both_photos Sample.halfDocumented Sample.creator
           (js "t1") (Resolved tt)).
  intros [_ (a & Ha & _)]. vm_compute in Ha. discriminate.
Defined.

End TaskDetail.

(** ** The task card of the explore listing *)

Section AcceptTask.

(** C4, as stated, fails: for an open task the card offers Accept Task to
    the very user who created it, and the click posts the assign request. *)
Lemma own_open_task_is_offered :
  Task.created_by Sample.ownTask = User.id Sample.creator
  /\ TaskCard.showsAcceptButton Sample.ownTask = true
  /\ In (Post (TaskAssign (Task.id Sample.ownTask)) NoBody)
        (TaskCard.clickAccept Sample.ownTask None (Resolved tt)).
Proof.
  split; [reflexivity|]. split; [reflexivity|]. left. reflexivity.
Qed.

(** C4, amended.  The card offers Accept Task exactly when the status of
    the task is 'open': two tasks with the same status are offered alike,
    whoever created them.  A click on an offered task posts the assign
    request for that task first; when the server rejects it, the only
    other action is an error toast that shows the server's detail. *)
Theorem accept_offered_by_status_only (task : Task.t)
    (onAssign : option (list action)) :
  (TaskCard.showsAcceptButton task = true <-> Task.status task = js "open")
  /\ (forall other : Task.t,
        Task.status other = Task.status task ->
        TaskCard.showsAcceptButton other = TaskCard.showsAcceptButton task)
  /\ (Task.status task = js "open" ->
      (forall r, exists rest,
         TaskCard.clickAccept task onAssign r
         = Post (TaskAssign (Task.id task)) NoBody :: rest)
      /\ forall detail,
           TaskCard.clickAccept task onAssign (Rejected detail)
           = [Post (TaskAssign (Task.id task)) NoBody;
              toast error (or_string detail (js "Failed to assign task"))])
  /\ (Task.status task <> js "open" ->
      forall r, TaskCard.clickAccept task onAssign r = []).
Proof.
  unfold TaskCard.clickAccept, TaskCard.showsAcceptButton, strict_eq.
  split; [apply bool_decide_eq_true|].
  split; [by intros other ->|].
  split.
  - intros Hopen. rewrite bool_decide_true by exact Hopen.
    split; [|reflexivity]. intros r. by eexists.
  - intros Hnot r. by rewrite bool_decide_false.
Qed.

Lemma accept_offered_by_status_only_sample :
  (forall r, exists rest,
     TaskCard.clickAccept Sample.ownTask None r
     = Post (TaskAssign (js "t1")) NoBody :: rest)
  /\ TaskCard.clickAccept Sample.halfDocumented None (Resolved tt) = [].
Proof.
  split.
  - apply (accept_offered_by_status_only Sample.ownTask None). reflexivity.
  - apply (accept_offered_by_status_only Sample.halfDocumented None).
    vm_compute. discriminate.
Defined.

End AcceptTask.

(** ** Strings: [split], [trim] and the skills list *)

Section Strings.

Implicit Types (s t w : jsstring) (f : N -> bool).

Lemma takeWhile_dropWhile f s : takeWhile f s ++ dropWhile f s = s.
Proof.
  induction s as [|c r IH]; simpl; [reflexivity|].
  destruct (f c); simpl; [by rewrite IH | reflexivity].
Qed.

Lemma takeWhile_all f s : Forall (fun c => f c = true) (takeWhile f s).
Proof.
  induction s as [|c r IH]; simpl; [constructor|].
  destruct (f c) eqn:E; [by constructor | constructor].
Qed.

Lemma dropWhile_head f s c r : dropWhile f s = c :: r -> f c = false.
Proof.
  induction s as [|d u IH]; simpl; [discriminate|].
  destruct (f d) eqn:E; [exact IH|]. intros [= <- _]. exact E.
Qed.

Lemma dropWhile_snoc f s c :
  f c = false -> dropWhile f (s ++ [c]) = dropWhile f s ++ [c].
Proof.
  intros Hc. induction s as [|d u IH]; simpl; [by rewrite Hc|].
  destruct (f d); [exact IH | reflexivity].
Qed.

(** [trimStart] and [trimEnd] only remove white space, at their end. *)
Lemma trimStart_split s :
  exists l, s = l ++ trimStart s /\ Forall (fun c => isWhiteSpace c = true) l.
Proof.
  exists (takeWhile isWhiteSpace s). split.
  - symmetry. apply takeWhile_dropWhile.
  - apply takeWhile_all.
Qed.

Lemma trimEnd_split s :
  exists r, s = trimEnd s ++ r /\ Forall (fun c => isWhiteSpace c = true) r.
Proof.
  exists (rev (takeWhile isWhiteSpace (rev s))). split.
  - unfold trimEnd. rewrite <- rev_app_distr, takeWhile_dropWhile.
    by rewrite rev_involutive.
  - apply Forall_rev, takeWhile_all.
Qed.

Lemma trimEnd_last s r c : trimEnd s = r ++ [c] -> isWhiteSpace c = false.
Proof.
  unfold trimEnd. intros H.
  apply (f_equal (@rev N)) in H. rewrite rev_involutive, rev_unit in H.
  exact (dropWhile_head _ _ _ _ H).
Qed.

Lemma trimEnd_cons s c :
  isWhiteSpace c = false ->
  trimEnd (c :: s) = c :: trimEnd s.
Proof.
  intros Hc. unfold trimEnd. simpl rev at 2.
  rewrite dropWhile_snoc by exact Hc. by rewrite rev_unit.
Qed.

Lemma trim_head s c r : trim s = c :: r -> isWhiteSpace c = false.
Proof.
  unfold trim. destruct (trimStart s) as [|d u] eqn:E; [discriminate|].
  pose proof (dropWhile_head _ _ _ _ E) as Hd.
  rewrite trimEnd_cons by exact Hd. by intros [= <- _].
Qed.

Lemma trim_last s r c : trim s = r ++ [c] -> isWhiteSpace c = false.
Proof. apply trimEnd_last. Qed.

Lemma trim_split s :
  exists l r, s = l ++ trim s ++ r
    /\ Forall (fun c => isWhiteSpace c = true) l
    /\ Forall (fun c => isWhiteSpace c = true) r.
Proof.
  destruct (trimStart_split s) as (l & Hl & Hwl).
  destruct (trimEnd_split (trimStart s)) as (r & Hr & Hwr).
  exists l, r. split; [|by split].
  unfold trim. by rewrite <- Hr.
Qed.

Lemma split_cons sep s : exists w ws, split sep s = w :: ws.
Proof.
  destruct s as [|c r]; simpl; [by eexists _, _|].
  destruct (c =? sep)%N; [by eexists _, _|].
  destruct (split sep r); by eexists _, _.
Qed.

Lemma join_cons_char sep c w ws :
  join sep ((c :: w) :: ws) = c :: join sep (w :: ws).
Proof. by destruct ws. Qed.

(** The pieces of [split] are the text cut at the separators: joined with
    the separator they give the text back, and none contains it. *)
Lemma join_split sep s : join sep (split sep s) = s.
Proof.
  induction s as [|c r IH]; [reflexivity|]. simpl.
  destruct (c =? sep)%N eqn:E.
  - apply N.eqb_eq in E as ->.
    destruct (split_cons sep r) as (w & ws & Hs). rewrite Hs in *.
    simpl. by rewrite <- IH.
  - destruct (split_cons sep r) as (w & ws & Hs). rewrite Hs in *.
    rewrite join_cons_char. by rewrite IH.
Qed.

Lemma split_no_sep sep s : Forall (fun w => ~ In sep w) (split sep s).
Proof.
  induction s as [|c r IH]; simpl.
  - constructor; [|constructor]. intros [].
  - destruct (c =? sep)%N eqn:E.
    + constructor; [intros [] | exact IH].
    + destruct (split sep r) as [|w ws]; inversion IH; subst.
      * constructor; [|constructor]. intros [->|[]].
        by rewrite N.eqb_refl in E.
      * constructor; [|assumption]. intros [->|Hin]; [|auto].
        by rewrite N.eqb_refl in E.
Qed.

(** What [split(',').map(s => s.trim()).filter(Boolean)] holds. *)
Lemma skills_list_spec (text : jsstring) :
  let pieces := split comma text in
  let sent := List.filter Boolean (List.map trim pieces) in
  (join comma pieces = text /\ Forall (fun w => ~ In comma w) pieces)
  /\ (forall s, In s sent <-> s <> [] /\ exists w, In w pieces /\ s = trim w)
  /\ (forall s, In s sent ->
        s <> []
        /\ (forall c r, s = c :: r -> isWhiteSpace c = false)
        /\ (forall r c, s = r ++ [c] -> isWhiteSpace c = false)
        /\ exists w l r,
             In w pieces /\ w = l ++ s ++ r
             /\ Forall (fun c => isWhiteSpace c = true) l
             /\ Forall (fun c => isWhiteSpace c = true) r).
Proof.
  intros pieces sent.
  assert (Hsent : forall s, In s sent <->
                    s <> [] /\ exists w, In w pieces /\ s = trim w).
  { intros s. unfold sent. rewrite filter_In, in_map_iff. split.
    - intros [(w & <- & Hw) Hb]. split; [|by exists w].
      intros E. by rewrite E in Hb.
    - intros [Hne (w & Hw & ->)]. split; [by exists w|].
      by destruct (trim w). }
  split; [split; [apply join_split | apply split_no_sep]|].
  split; [exact Hsent|].
  intros s Hs. apply Hsent in Hs as [Hne (w & Hw & ->)].
  split; [exact Hne|].
  split; [intros c r; apply trim_head|].
  split; [intros r c; apply trim_last|].
  destruct (trim_split w) as (l & r & Heq & Hl & Hr).
  by exists w, l, r.
Qed.

(** The one request of each of the two submit handlers, whatever the
    answer: the POST of the task, resp. the PUT of the profile, with the
    body built from the form. *)
Lemma create_handleSubmit_requests (fd : CreateTask.formData) (r : response unit) :
  requests (CreateTask.handleSubmit fd r)
  = [Post Tasks (CreateBody (CreateTask.requestBody fd))].
Proof. destruct r; reflexivity. Qed.

Lemma profile_handleSubmit_requests (pd : ProfileSettings.formData)
    (r : response User.t) :
  requests (ProfileSettings.handleSubmit pd r)
  = [Put UsersProfile (UpdateProfileBody (ProfileSettings.requestBody pd))].
Proof. destruct r; reflexivity. Qed.

(** C8.  The one request task creation sends is the POST of a body, and
    the one request the profile update sends is the PUT of a body, whose
    skills collection is made of the comma-separated components of the
    text entered (joined by commas they give the text back and none
    contains a comma), each with the white space around it removed, the
    ones left empty dropped: a submitted string is never empty and neither
    starts nor ends with white space. *)
Theorem submitted_skills_are_trimmed_components
    (fd : CreateTask.formData) (pd : ProfileSettings.formData)
    (r : response unit) (r' : response User.t) :
  let spec (text : jsstring) (sent : list jsstring) :=
    let pieces := split comma text in
    (join comma pieces = text /\ Forall (fun w => ~ In comma w) pieces)
    /\ sent = List.filter Boolean (List.map trim pieces)
    /\ (forall s, In s sent <-> s <> [] /\ exists w, In w pieces /\ s = trim w)
    /\ (forall s, In s sent ->
          s <> []
          /\ (forall c r, s = c :: r -> isWhiteSpace c = false)
          /\ (forall r c, s = r ++ [c] -> isWhiteSpace c = false)
          /\ exists w l r,
               In w pieces /\ w = l ++ s ++ r
               /\ Forall (fun c => isWhiteSpace c = true) l
               /\ Forall (fun c => isWhiteSpace c = true) r) in
  (exists b,
     requests (CreateTask.handleSubmit fd r) = [Post Tasks (CreateBody b)]
     /\ spec (CreateTask.skills_required fd) (body_skills_required b))
  /\ (exists b,
        requests (ProfileSettings.handleSubmit pd r')
        = [Put UsersProfile (UpdateProfileBody b)]
        /\ spec (ProfileSettings.skills pd) (body_skills b)).
Proof.
  intros spec. split.
  - exists (CreateTask.requestBody fd).
    split; [apply create_handleSubmit_requests|].
    destruct (skills_list_spec (CreateTask.skills_required fd)) as (H1 & H2 & H3).
    split; [exact H1|]. split; [reflexivity|]. by split.
  - exists (ProfileSettings.requestBody pd).
    split; [apply profile_handleSubmit_requests|].
    destruct (skills_list_spec (ProfileSettings.skills pd)) as (H1 & H2 & H3).
    split; [exact H1|]. split; [reflexivity|]. by split.
Qed.

Lemma submitted_skills_sample :
  exists b,
    requests (CreateTask.handleSubmit Sample.skillsForm (Resolved tt))
    = [Post Tasks (CreateBody b)]
    /\ body_skills_required b = [js "Dog walking"; js "Punctual"]
    /\ (forall c r, js "Punctual" = c :: r -> isWhiteSpace c = false)
    /\ (forall r c, js "Punctual" = r ++ [c] -> isWhiteSpace c = false).
Proof.
  pose proof (submitted_skills_are_trimmed_components Sample.skillsForm
                {| ProfileSettings.name := []; ProfileSettings.skills := [];
                   ProfileSettings.location := [];
                   ProfileSettings.availability := [] |}
                (Resolved tt) (Rejected None)) as [(b & Hreq & H) _].
  exists b. split; [exact Hreq|].
  destruct H as (_ & Hsent & _ & H).
  assert (Hb : body_skills_required b = [js "Dog walking"; js "Punctual"]).
  { rewrite Hsent. vm_compute. reflexivity. }
  split; [exact Hb|].
  destruct (H (js "Punctual")) as (_ & Hhead & Hlast & _).
  - rewrite Hb. right. left. reflexivity.
  - split; assumption.
Defined.

End Strings.

(** ** The number fields of the create form *)

Section ParseInt.

Lemma digitsOf_cons d : d <> Decimal.Nil ->
  exists c r, digitsOf d = c :: r /\ (48 <= c <= 57)%N.
Proof.
  destruct d; [congruence|..]; intros _; simpl; eexists _, _; (split; [reflexivity|lia]).
Qed.

Lemma isWhiteSpace_digit c : (48 <= c <= 57)%N -> isWhiteSpace c = false.
Proof.
  intros H. unfold isWhiteSpace.
  repeat match goal with
  | |- context [(c =? ?k)%N] => replace (c =? k)%N with false by (symmetry; apply N.eqb_neq; lia)
  end.
  replace (8192 <=? c)%N with false by (symmetry; apply N.leb_gt; lia).
  reflexivity.
Qed.

Lemma parseDigits_digitsOf d acc :
  parseDigits 10 (digitsOf d) acc true
  = Some (acc * 10 ^ Z.of_N (DecimalPos.Unsigned.usize d) + Z.of_N (DecimalPos.Unsigned.of_lu (Decimal.rev d)))%Z.
Proof.
  revert acc. induction d; intros acc;
    [simpl; f_equal; lia|..];
    simpl digitsOf; cbn [parseDigits]; 
    unfold Decimal.rev; simpl Decimal.revapp; rewrite DecimalPos.Unsigned.of_lu_revapp;
    simpl DecimalPos.Unsigned.usize; rewrite N2Z.inj_succ, Z.pow_succ_r by lia;
    rewrite N2Z.inj_add, N2Z.inj_mul, N2Z.inj_pow;
    cbn [digitValue]; simpl; rewrite IHd; f_equal; simpl Z.of_N; lia.
Qed.

Lemma trimStart_digitsOf d : trimStart (digitsOf d) = digitsOf d.
Proof.
  destruct d; reflexivity.
Qed.

Lemma readSign_digitsOf d : readSign (digitsOf d) = (1%Z, digitsOf d).
Proof.
  destruct d; reflexivity.
Qed.

Lemma readRadix_digitsOf d : readRadix (digitsOf d) = (10%Z, digitsOf d).
Proof.
  destruct d as [|d|d|d|d|d|d|d|d|d|d]; try reflexivity.
  destruct d; reflexivity.
Qed.

Lemma parseDigits_first d :
  d <> Decimal.Nil ->
  parseDigits 10 (digitsOf d) 0 false
  = Some (Z.of_N (DecimalPos.Unsigned.of_lu (Decimal.rev d))).
Proof.
  intros Hd.
  assert (H : parseDigits 10 (digitsOf d) 0 false
              = parseDigits 10 (digitsOf d) 0 true).
  { destruct d; [congruence|..]; reflexivity. }
  rewrite H, parseDigits_digitsOf. f_equal; lia.
Qed.

Lemma parseInt_digitsOf d :
  d <> Decimal.Nil ->
  parseInt (digitsOf d) = toNumber (Z.of_N (Pos.of_uint d)).
Proof.
  intros Hd. unfold parseInt.
  rewrite trimStart_digitsOf, readSign_digitsOf, readRadix_digitsOf.
  rewrite parseDigits_first by exact Hd.
  rewrite DecimalPos.Unsigned.of_uint_alt. f_equal; lia.
Qed.

Lemma parseInt_minus_digitsOf d :
  d <> Decimal.Nil ->
  parseInt (45%N :: digitsOf d) = toNumber (- Z.of_N (Pos.of_uint d)).
Proof.
  intros Hd. unfold parseInt.
  change (trimStart (45%N :: digitsOf d)) with (45%N :: digitsOf d).
  change (readSign (45%N :: digitsOf d)) with ((-1)%Z, digitsOf d).
  cbv beta iota.
  rewrite readRadix_digitsOf.
  rewrite parseDigits_first by exact Hd.
  rewrite DecimalPos.Unsigned.of_uint_alt. f_equal; lia.
Qed.

(** Typing an integer in decimal and parsing it gives the Number value for
    that integer. *)
Lemma parseInt_decimal z : parseInt (decimal z) = toNumber z.
Proof.
  unfold decimal, Z.to_int. destruct z as [|p|p].
  - reflexivity.
  - rewrite parseInt_digitsOf by apply DecimalPos.Unsigned.to_uint_nonnil.
    by rewrite DecimalPos.Unsigned.of_to.
  - rewrite parseInt_minus_digitsOf by apply DecimalPos.Unsigned.to_uint_nonnil.
    by rewrite DecimalPos.Unsigned.of_to.
Qed.

(** Every integer of magnitude below 2^53 is its own Number value. *)
Lemma toNumber_exact z : (Z.abs z < 2 ^ 53)%Z -> toNumber z = Num z.
Proof.
  intros Hz. unfold toNumber. apply Z.ltb_lt in Hz. by rewrite Hz.
Qed.

(** The Number value for a nonzero integer is not zero (and is never
    NaN). *)
Lemma toNumber_truthy z : z <> 0%Z -> truthy_number (toNumber z) = true.
Proof.
  intros Hz. unfold toNumber.
  destruct (Z.abs z <? 2 ^ 53)%Z eqn:Hsmall.
  - simpl. apply negb_true_iff. by apply Z.eqb_neq.
  - apply Z.ltb_ge in Hsmall.
    set (a := Z.abs z) in *. set (e := (Z.log2 a - 52)%Z).
    assert (Ha : (0 < a)%Z) by lia.
    assert (Hlog : (53 <= Z.log2 a)%Z).
    { change 53%Z with (Z.log2 (2 ^ 53)). by apply Z.log2_le_mono. }
    assert (He : (2 ^ e <= a)%Z).
    { destruct (Z.log2_spec a Ha) as [Hlo _].
      transitivity (2 ^ Z.log2 a)%Z; [|exact Hlo].
      apply Z.pow_le_mono_r; unfold e; lia. }
    assert (Hpow : (0 < 2 ^ e)%Z) by (apply Z.pow_pos_nonneg; unfold e; lia).
    assert (Hq : (1 <= a / 2 ^ e)%Z).
    { apply Z.div_le_lower_bound; lia. }
    cbv zeta. fold a. fold e.
    destruct (2 ^ 1024 <=? _)%Z; [reflexivity|].
    simpl. apply negb_true_iff, Z.eqb_neq.
    destruct ((2 ^ (e - 1) <? a mod 2 ^ e)%Z
              || ((a mod 2 ^ e =? 2 ^ (e - 1))%Z && Z.odd (a / 2 ^ e))); nia.
Qed.

(** Past 2^53 the Number value is the nearest double, and a numeral long
    enough gives Infinity. *)
Lemma toNumber_rounds :
  toNumber 9007199254740993 = Num 9007199254740992
  /\ toNumber 9007199254740995 = Num 9007199254740996
  /\ toNumber (10 ^ 309) = Infinity false
  /\ toNumber (- 10 ^ 309) = Infinity true.
Proof. repeat split; vm_compute; reflexivity. Qed.

(** Text that does not start, after white space and a sign, with a
    decimal digit is not a number. *)
Lemma parseInt_no_digit s sign c r :
  readSign (trimStart s) = (sign, c :: r) ->
  digitValue 10 c = None ->
  parseInt s = NaN.
Proof.
  intros Hsign Hc. unfold parseInt. rewrite Hsign.
  assert (Hradix : readRadix (c :: r) = (10%Z, c :: r)).
  { unfold readRadix. destruct c as [|q]; [reflexivity|].
    do 6 (destruct q as [q|q|]; try reflexivity). discriminate. }
  rewrite Hradix. simpl. by rewrite Hc.
Qed.

(** C10.  Whatever text is entered in the duration or the credits field of
    the create form, the value stored is [parseInt] of the text when that
    is a number other than 0, and 30 otherwise.  So the stored value is
    never NaN and never 0; the empty text, the text '0' and text with no
    leading digit give 30; and a nonzero integer typed in decimal is
    stored with no clamping to the bounds of the field: as it is when its
    magnitude is below 2^53, and as the nearest double in general. *)
Theorem create_form_number_fields (text : jsstring) (p : CreateTask.formData) :
  let stored :=
    match parseInt text with
    | NaN => Num 30
    | Num n => if (n =? 0)%Z then Num 30 else Num n
    | Infinity negative => Infinity negative
    end in
  CreateTask.duration (CreateTask.onDurationChange text p) = stored
  /\ CreateTask.credits_offered (CreateTask.onCreditsChange text p) = stored
  /\ (stored <> NaN /\ stored <> Num 0)
  /\ (text = [] \/ text = js "0" -> stored = Num 30)
  /\ (forall sign c r,
        readSign (trimStart text) = (sign, c :: r) ->
        digitValue 10 c = None -> stored = Num 30)
  /\ (forall n, n <> 0%Z -> text = decimal n ->
        stored = toNumber n
        /\ ((Z.abs n < 2 ^ 53)%Z -> stored = Num n)).
Proof.
  intros stored.
  assert (Hor : or_number (parseInt text) (Num 30) = stored).
  { unfold stored, or_number, truthy_number.
    destruct (parseInt text) as [|n|b]; [reflexivity| |reflexivity].
    by destruct (n =? 0)%Z. }
  split; [exact Hor|]. split; [exact Hor|].
  split; [|split; [|split]].
  - unfold stored. destruct (parseInt text) as [|n|b]; [done| |done].
    destruct (n =? 0)%Z eqn:E; [done|].
    apply Z.eqb_neq in E. split; congruence.
  - unfold stored. by intros [-> | ->].
  - intros sign c r Hsign Hc. unfold stored.
    by rewrite (parseInt_no_digit _ _ _ _ Hsign Hc).
  - intros n Hn ->.
    assert (Hstored : stored = toNumber n).
    { unfold stored. rewrite parseInt_decimal.
      pose proof (toNumber_truthy n Hn) as Ht.
      destruct (toNumber n) as [|z|b]; [discriminate| |reflexivity].
      simpl in Ht. apply negb_true_iff in Ht. by rewrite Ht. }
    split; [exact Hstored|].
    intros Hsmall. by rewrite Hstored, toNumber_exact.
Qed.

Lemma create_form_number_fields_sample :
  decimal 100 = js "100" /\ (60 < 100)%Z
  /\ CreateTask.duration
       (CreateTask.onDurationChange (js "100") CreateTask.initial)
     = Num 100
  /\ CreateTask.duration
       (CreateTask.onDurationChange (js "abc") CreateTask.initial)
     = Num 30.
Proof.
  split; [reflexivity|]. split; [lia|].
  pose proof (create_form_number_fields (js "100") CreateTask.initial)
    as (Hd & _ & _ & _ & _ & Hn).
  pose proof (create_form_number_fields (js "abc") CreateTask.initial)
    as (Hd' & _ & _ & _ & Hno & _).
  split.
  - rewrite Hd. apply (Hn 100%Z); [lia | reflexivity | reflexivity].
  - rewrite Hd'. apply (Hno 1%Z 97%N (js "bc")); reflexivity.
Defined.

End ParseInt.

(** ** The lifecycle engine *)

Import Core.

Section Validate.

Lemma atomically_failure {A} (m : M A) w e :
  (atomically m w).1 = Err e -> (atomically m w).2 = w.
Proof.
  unfold atomically. destruct (m w) as [[a|e'] w']; simpl; [discriminate|done].
Qed.

Lemma transfer_insufficient from to amount l :
  (balance l from < amount)%Z -> transfer from to amount l = Err InsufficientBalance.
Proof.
  intros H. unfold transfer. apply Z.ltb_lt in H. by rewrite H.
Qed.

(** Without the atomic unit the status change would outlive the failed
    transfer. *)
Lemma validateSteps_tears :
  validateSteps 2 Sample.poorOwner
  = (Err TransferFailed,
     {| task := setStatus validated Sample.walk; ledger := ledger Sample.poorOwner |}).
Proof. reflexivity. Qed.

(** Scenario 1 of the specification: the owner holds 100, the task offers
    30; validation moves 30 to the assignee and the task is validated. *)
Lemma validate_commits :
  let (res, w) := validate 2 Sample.richOwner in
  res = Ok tt /\ status (task w) = validated
  /\ balance (ledger w) 1 = 70%Z /\ balance (ledger w) 2 = 30%Z.
Proof. vm_compute. repeat split. Qed.

(** C2.  When [validate] is called by the assignee of an assigned task
    that passes the evidence gate and the owner holds less than the credits
    offered, the ledger transfer fails, the whole operation fails with
    TransferFailed, and the world afterwards is the world before: the task
    is still assigned and the balances of owner and assignee are what they
    were. *)
Theorem validate_all_or_nothing (actor : UserId) (w : World) :
  status (task w) = assigned ->
  assignee (task w) = Some actor ->
  accepts (task w) = true ->
  (balance (ledger w) (owner (task w)) < credits_offered (task w))%Z ->
  let after := (validate actor w).2 in
  (validate actor w).1 = Err TransferFailed
  /\ after = w
  /\ status (task after) = assigned
  /\ balance (ledger after) (owner (task w)) = balance (ledger w) (owner (task w))
  /\ balance (ledger after) actor = balance (ledger w) actor.
Proof.
  intros Hst Has Hacc Hbal after.
  assert (Hres : (validate actor w).1 = Err TransferFailed).
  { unfold validate, atomically, validateSteps, bind, readTask, guard, ret,
      writeStatus, ledgerTransfer. cbn [task ledger].
    rewrite bool_decide_true by exact Hst. cbn.
    rewrite bool_decide_true by exact Has. cbn.
    rewrite Hacc. cbn.
    by rewrite (transfer_insufficient _ _ _ _ Hbal). }
  assert (Hw : after = w) by exact (atomically_failure _ _ _ Hres).
  split; [exact Hres|]. split; [exact Hw|]. rewrite Hw. by split.
Qed.

Lemma validate_all_or_nothing_sample :
  (validate 2 Sample.poorOwner).1 = Err TransferFailed
  /\ (validate 2 Sample.poorOwner).2 = Sample.poorOwner
  /\ status (task (validate 2 Sample.poorOwner).2) = assigned
  /\ balance (ledger (validate 2 Sample.poorOwner).2) 1 = balance (ledger Sample.poorOwner) 1
  /\ balance (ledger (validate 2 Sample.poorOwner).2) 2 = balance (ledger Sample.poorOwner) 2.
Proof.
  apply (validate_all_or_nothing 2 Sample.poorOwner);
    [reflexivity | reflexivity | reflexivity | vm_compute; reflexivity].
Defined.

End Validate.

Section Create.

Lemma withinBounds_spec (f : Fields) :
  withinBounds f = true <->
  (15 <= fields_duration f <= 60)%Z /\ (0 < fields_credits_offered f)%Z
  /\ fields_title f <> [].
Proof.
  unfold withinBounds. rewrite !andb_true_iff, !Z.leb_le, Z.ltb_lt.
  assert (HB : Boolean (fields_title f) = true <-> fields_title f <> []).
  { destruct (fields_title f); simpl; split; congruence. }
  rewrite HB. tauto.
Qed.

Lemma checkValidity_spec (fd : CreateTask.formData) :
  CreateTask.checkValidity fd = true ->
  (exists d, CreateTask.duration fd = Num d /\ (15 <= d <= 60)%Z)
  /\ (exists c, CreateTask.credits_offered fd = Num c /\ (0 < c)%Z)
  /\ CreateTask.title fd <> [].
Proof.
  unfold CreateTask.checkValidity, CreateTask.required, CreateTask.inRange.
  rewrite !andb_true_iff. intros ((((Ht & _) & Hd) & Hc) & _).
  destruct (CreateTask.duration fd) as [|d|?]; [discriminate| |discriminate].
  destruct (CreateTask.credits_offered fd) as [|c|?]; [discriminate| |discriminate].
  apply andb_true_iff in Hd as [Hd1 Hd2]. apply andb_true_iff in Hc as [Hc1 _].
  apply Z.leb_le in Hd1, Hd2, Hc1.
  split; [exists d; split; [reflexivity | lia]|].
  split; [exists c; split; [reflexivity | lia]|].
  intros E. by rewrite E in Ht.
Qed.

(** C5.  [create] validates the bounds: with a duration in [15,60],
    positive credits and a non-empty title it returns a new open task of
    the owner; when any of the three is violated it fails with
    ValidationError and returns no task.  On the client, a create request
    leaves the form only when the form's values are within these bounds,
    and a rejected request ends in an error toast, with neither the
    task-created callback nor a navigation. *)
Theorem create_validates_bounds (fd : CreateTask.formData) (r : response unit)
    (o : UserId) (f : Fields) :
  let bounds :=
    (15 <= fields_duration f <= 60)%Z /\ (0 < fields_credits_offered f)%Z
    /\ fields_title f <> [] in
  (bounds ->
   exists t, create o f = Ok t /\ status t = open /\ owner t = o
             /\ assignee t = None)
  /\ (~ bounds -> create o f = Err ValidationError)
  /\ (forall a, In a (CreateTask.submit fd r) -> isRequest a = true ->
        a = Post Tasks (CreateBody (CreateTask.requestBody fd))
        /\ (exists d, CreateTask.duration fd = Num d /\ (15 <= d <= 60)%Z)
        /\ (exists c, CreateTask.credits_offered fd = Num c /\ (0 < c)%Z)
        /\ CreateTask.title fd <> [])
  /\ (forall detail,
        CreateTask.handleSubmit fd (Rejected detail)
        = [setLoading true; Post Tasks (CreateBody (CreateTask.requestBody fd));
           toast error (or_string detail (js "Failed to create task"));
           setLoading false]).
Proof.
  intros bounds. split; [|split; [|split]].
  - intros Hb. apply withinBounds_spec in Hb. unfold create. rewrite Hb.
    by eexists.
  - intros Hb. unfold create.
    destruct (withinBounds f) eqn:E; [|reflexivity].
    destruct Hb. by apply withinBounds_spec.
  - intros a Hin Hreq. unfold CreateTask.submit in Hin.
    destruct (CreateTask.checkValidity fd) eqn:E; [|destruct Hin].
    split; [|by apply checkValidity_spec].
    unfold CreateTask.handleSubmit in Hin.
    destruct r; simpl in Hin;
      repeat (destruct Hin as [<-|Hin]; [try discriminate; try reflexivity|]);
      destruct Hin.
  - reflexivity.
Qed.

Lemma create_validates_bounds_sample :
  (exists t, create 1 Sample.goodFields = Ok t /\ status t = open /\ owner t = 1
             /\ assignee t = None)
  /\ create 1 Sample.longFields = Err ValidationError.
Proof.
  split.
  - apply (create_validates_bounds CreateTask.initial (Resolved tt) 1 Sample.goodFields).
    vm_compute. repeat split; discriminate.
  - apply (create_validates_bounds CreateTask.initial (Resolved tt) 1 Sample.longFields).
    intros [[_ H] _]. vm_compute in H. by apply H.
Defined.
End Create.

Section Race.

Implicit Types (t : Task) (s : System) (c : Call).

Lemma raceInvariant_start t actors :
  status t = open -> assignee t = None ->
  Forall (fun a => a <> owner t) actors ->
  raceInvariant (owner t) (start t actors).
Proof.
  intros Hopen Hnone Hact. unfold raceInvariant, start. simpl.
  split; [reflexivity|]. split.
  - apply Forall_fmap. exact Hact.
  - left. split; [exact Hopen|]. split; [exact Hnone|].
    apply Forall_fmap, Forall_true. intros a. by left.
Qed.

Lemma raceInvariant_step o i s :
  raceInvariant o s -> raceInvariant o (step i s).
Proof.
  destruct s as [t cs]. unfold step. simpl.
  destruct (cs !! i) as [[a c]|] eqn:Hi; [|done].
  intros (Hown & Hact & Hphase). simpl in *.
  assert (Ha : a <> o).
  { rewrite Forall_lookup in Hact. exact (Hact _ _ Hi). }
  assert (Hact' : forall c', Forall (fun e => e.1 <> o) (<[i := (a, c')]> cs)).
  { intros c'. apply Forall_insert; [exact Hact | exact Ha]. }
  destruct Hphase as [(Hopen & Hnone & Hund) | (Hasg & w & b & Hw & Hb & Hrest)].
  - (* nobody has committed yet *)
    assert (Hc : undecided c).
    { rewrite Forall_lookup in Hund. exact (Hund _ _ Hi). }
    destruct Hc as [-> | ->]; unfold callStep.
    + unfold assignRead. rewrite bool_decide_true by exact Hopen.
      rewrite bool_decide_false by congruence.
      split; [exact Hown|]. split; [apply Hact'|].
      left. split; [exact Hopen|]. split; [exact Hnone|].
      apply Forall_insert; [exact Hund|]. right. by rewrite Hopen.
    + unfold assignCommit. rewrite bool_decide_true by exact Hopen.
      split; [exact Hown|]. split; [apply Hact'|].
      right. split; [reflexivity|]. exists i, a. simpl.
      split; [apply list_lookup_insert_eq; by eapply lookup_lt_Some|].
      split; [reflexivity|].
      intros j c Hj Hc. rewrite list_lookup_insert_ne in Hc by congruence.
      left. rewrite Forall_lookup in Hund. exact (Hund _ _ Hc).
  - (* call [w] has won *)
    destruct (decide (i = w)) as [->|Hiw].
    + rewrite Hw in Hi. injection Hi as <- <-. simpl.
      rewrite list_insert_id by exact Hw.
      split; [exact Hown|]. split; [exact Hact|].
      right. split; [exact Hasg|]. by exists w, b.
    + assert (Hc : lost c) by exact (Hrest _ _ Hiw Hi).
      assert (Hstay : forall c', lost c' ->
                raceInvariant o (t, <[i := (a, c')]> cs)).
      { intros c' Hc'. unfold raceInvariant. simpl. split; [exact Hown|]. split; [apply Hact'|].
        right. split; [exact Hasg|]. exists w, b.
        split; [by rewrite list_lookup_insert_ne|]. split; [exact Hb|].
        intros j d Hj Hd. apply list_lookup_insert_Some in Hd
          as [(-> & <- & _) | (Hne & Hd)]; [exact Hc' | by eapply Hrest]. }
      destruct Hc as [[-> | ->] | ->]; unfold callStep.
      * unfold assignRead. rewrite bool_decide_false by congruence.
        apply Hstay. by right.
      * unfold assignCommit. rewrite bool_decide_false by congruence.
        apply Hstay. by right.
      * apply Hstay. by right.
Qed.

Lemma raceInvariant_run o schedule s :
  raceInvariant o s -> raceInvariant o (run schedule s).
Proof.
  revert s. induction schedule as [|i sch IH]; intros s Hs; [exact Hs|].
  apply IH, raceInvariant_step, Hs.
Qed.


Lemma step_length i s : length (step i s).2 = length s.2.
Proof.
  destruct s as [t cs]. unfold step. simpl.
  destruct (cs !! i) as [[a c]|]; [|reflexivity].
  destruct (callStep a c t). simpl. apply length_insert.
Qed.

Lemma run_length schedule s : length (run schedule s).2 = length s.2.
Proof.
  revert s. induction schedule as [|i sch IH]; intros s; [reflexivity|].
  simpl. by rewrite IH, step_length.
Qed.

Lemma callStep_stage a c t : Nat.min 2 (S (stage c)) <= stage (callStep a c t).1.
Proof.
  destruct c; simpl.
  - destruct (assignRead a t); simpl; lia.
  - destruct (assignCommit a seen t); simpl; lia.
  - lia.
Qed.

(** A step of call [i] moves that call forward and leaves the actor of
    every call, and the point every other call is at, as they were. *)
Lemma step_stage i s j a c :
  s.2 !! j = Some (a, c) ->
  exists c', (step i s).2 !! j = Some (a, c')
    /\ (if decide (i = j) then Nat.min 2 (S (stage c)) else stage c) <= stage c'.
Proof.
  destruct s as [t cs]. unfold step. simpl. intros Hj.
  destruct (decide (i = j)) as [->|Hne].
  - rewrite Hj. pose proof (callStep_stage a c t) as Hst.
    destruct (callStep a c t) as [c' t']. simpl in *.
    exists c'. split; [|exact Hst].
    apply list_lookup_insert_eq. by eapply lookup_lt_Some.
  - exists c. split; [|lia].
    destruct (cs !! i) as [[b d]|]; [|exact Hj].
    destruct (callStep b d t). simpl. by rewrite list_lookup_insert_ne.
Qed.

Lemma run_stage schedule s j a c :
  s.2 !! j = Some (a, c) ->
  exists c', (run schedule s).2 !! j = Some (a, c')
    /\ Nat.min 2 (stage c + count_occ Nat.eq_dec schedule j) <= stage c'.
Proof.
  revert s c. induction schedule as [|i sch IH]; intros s c Hj.
  - exists c. split; [exact Hj | cbn [count_occ]; lia].
  - destruct (step_stage i s j a c Hj) as (c1 & H1 & Hst1).
    destruct (IH _ _ H1) as (c2 & H2 & Hst2).
    exists c2. split; [exact H2|].
    cbn [count_occ]. destruct (Nat.eq_dec i j) as [->|Hne].
    + rewrite decide_True in Hst1 by reflexivity. lia.
    + rewrite decide_False in Hst1 by exact Hne. lia.
Qed.

Lemma start_lookup t actors j a :
  actors !! j = Some a -> (start t actors).2 !! j = Some (a, Pending).
Proof.
  intros Hj. unfold start. simpl. by rewrite list_lookup_fmap, Hj.
Qed.

Lemma run_actor schedule t actors j e :
  (run schedule (start t actors)).2 !! j = Some e -> actors !! j = Some e.1.
Proof.
  intros He.
  assert (Hlt : j < length actors).
  { apply lookup_lt_Some in He. rewrite run_length in He.
    unfold start in He. simpl in He. by rewrite length_fmap in He. }
  destruct (lookup_lt_is_Some_2 _ _ Hlt) as [a Ha].
  destruct (run_stage schedule _ j a Pending (start_lookup t _ _ _ Ha))
    as (c' & Hc' & _).
  rewrite Hc' in He. injection He as <-. exact Ha.
Qed.

Lemma allFinished_lookup s :
  allFinished s = true <->
  forall j e, s.2 !! j = Some e -> exists r, e.2 = Finished r.
Proof.
  unfold allFinished. rewrite forallb_forall. split.
  - intros H j e Hj. specialize (H e).
    assert (Hin : In e s.2).
    { apply list_elem_of_In, list_elem_of_lookup. by exists j. }
    apply H in Hin. unfold isFinished in Hin.
    destruct e.2; try discriminate. by eexists.
  - intros H e Hin. apply list_elem_of_In, list_elem_of_lookup in Hin as [j Hj].
    destruct (H _ _ Hj) as [r Hr]. unfold isFinished. by rewrite Hr.
Qed.

(** C1.  Calls of [assign] by actors other than the owner race on an open
    task under an arbitrary schedule of their atomic steps.  In every state
    the schedule reaches, the task is consistent: it is never assigned
    without an assignee nor open with one.  Once every call has taken its
    two steps all calls have returned; and when all have returned, exactly
    one call returned Ok, the task is assigned to that call's actor, and
    every other call returned InvalidState. *)
Theorem concurrent_assign_single_winner (t : Task) (actors : list UserId)
    (schedule : list nat) :
  status t = open -> assignee t = None -> actors <> [] ->
  Forall (fun a => a <> owner t) actors ->
  let s := run schedule (start t actors) in
  consistent s.1 = true
  /\ ((forall j, j < length actors -> 2 <= count_occ Nat.eq_dec schedule j) ->
      allFinished s = true)
  /\ (allFinished s = true ->
      exists i a,
        actors !! i = Some a
        /\ s.2 !! i = Some (a, Finished (Ok tt))
        /\ status s.1 = assigned /\ assignee s.1 = Some a
        /\ forall j b, j <> i -> actors !! j = Some b ->
             s.2 !! j = Some (b, Finished (Err InvalidState))).
Proof.
  intros Hopen Hnone Hne Hact s.
  pose proof (raceInvariant_run (owner t) schedule _
                (raceInvariant_start t actors Hopen Hnone Hact))
    as (Hown & _ & Hphase).
  fold s in Hown, Hphase.
  split; [|split].
  - unfold consistent.
    destruct Hphase as [(Hst & Has & _) | (Hst & i & a & _ & Has & _)];
      rewrite Hst, Has; [by apply bool_decide_eq_true | ].
    apply bool_decide_eq_true. by eexists.
  - intros Hsched. apply allFinished_lookup. intros j e Hj.
    pose proof (run_actor _ _ _ _ _ Hj) as Ha.
    destruct (run_stage schedule _ j _ Pending (start_lookup t _ _ _ Ha))
      as (c' & Hc' & Hst).
    fold s in Hc'. rewrite Hc' in Hj. injection Hj as <-. simpl.
    specialize (Hsched j (lookup_lt_Some _ _ _ Ha)).
    destruct c'; cbn [stage] in Hst; [lia | lia | by eexists].
  - intros Hfin. rewrite allFinished_lookup in Hfin.
    destruct Hphase as [(_ & _ & Hund) | (Hst & i & a & Hi & Has & Hrest)].
    + exfalso. destruct actors as [|a0 rest]; [done|].
      destruct (run_stage schedule _ 0 a0 Pending
                  (start_lookup t (a0 :: rest) 0 a0 eq_refl)) as (c' & Hc' & _).
      fold s in Hc'. destruct (Hfin _ _ Hc') as [r Hr].
      rewrite Forall_lookup in Hund. specialize (Hund _ _ Hc').
      simpl in *. subst c'. by destruct Hund.
    + exists i, a. split; [exact (run_actor _ _ _ _ _ Hi)|].
      split; [exact Hi|]. split; [exact Hst|]. split; [exact Has|].
      intros j b Hji Hb.
      destruct (run_stage schedule _ j b Pending (start_lookup t _ _ _ Hb))
        as (c' & Hc' & _).
      fold s in Hc'. rewrite Hc'. f_equal. f_equal.
      destruct (Hfin _ _ Hc') as [r Hr]. simpl in Hr. subst c'.
      destruct (Hrest _ _ Hji Hc') as [[H | H] | H]; simpl in H;
        [discriminate | discriminate | exact H].
Qed.

(** Two actors read the open status one after the other, then both try
    to commit: the first to commit wins. *)
Lemma concurrent_assign_two_actors :
  let s := run [0; 1; 1; 0] (start Sample.openWalk [2; 3]) in
  consistent s.1 = true
  /\ ((forall j, j < 2 -> 2 <= count_occ Nat.eq_dec [0; 1; 1; 0] j) ->
      allFinished s = true)
  /\ (allFinished s = true ->
      exists i a,
        [2; 3] !! i = Some a
        /\ s.2 !! i = Some (a, Finished (Ok tt))
        /\ status s.1 = assigned /\ assignee s.1 = Some a
        /\ forall j b, j <> i -> [2; 3] !! j = Some b ->
             s.2 !! j = Some (b, Finished (Err InvalidState))).
Proof.
  apply (concurrent_assign_single_winner Sample.openWalk [2; 3] [0; 1; 1; 0]).
  - reflexivity.
  - reflexivity.
  - discriminate.
  - repeat constructor; discriminate.
Defined.

(** A call that runs alone takes its two steps back to back: it is
    [assign]. *)
Lemma assign_alone (actor : UserId) (t : Task) :
  run [0; 0] (start t [actor])
  = match assign actor t with
    | Ok t' => (t', [(actor, Finished (Ok tt))])
    | Err e => (t, [(actor, Finished (Err e))])
    end.
Proof.
  unfold assign, run, start, step, callStep. simpl.
  destruct (assignRead actor t) as [seen|e]; simpl; [|reflexivity].
  destruct (assignCommit actor seen t); reflexivity.
Qed.

End Race.

(** * Further properties of the client *)

(** ** Skills: from the profile to the form and back *)

Section SkillsRoundTrip.

Implicit Types (s t w : jsstring).

Lemma trimStart_head s :
  (forall c r, s = c :: r -> isWhiteSpace c = false) -> trimStart s = s.
Proof.
  destruct s as [|c r]; [reflexivity|]. intros H.
  unfold trimStart. simpl. by rewrite (H c r eq_refl).
Qed.

Lemma trimEnd_last_id s :
  (forall r c, s = r ++ [c] -> isWhiteSpace c = false) -> trimEnd s = s.
Proof.
  intros H. unfold trimEnd.
  destruct (rev s) as [|c r] eqn:E.
  - apply (f_equal (@rev N)) in E. rewrite rev_involutive in E. by subst.
  - assert (Hs : s = rev r ++ [c]).
    { apply (f_equal (@rev N)) in E. by rewrite rev_involutive in E. }
    simpl. rewrite (H _ _ Hs). simpl. by rewrite Hs.
Qed.

(** A string that neither starts nor ends with white space is its own
    [trim]. *)
Lemma trim_unpadded s :
  (forall c r, s = c :: r -> isWhiteSpace c = false) ->
  (forall r c, s = r ++ [c] -> isWhiteSpace c = false) ->
  trim s = s.
Proof.
  intros Hh Hl. unfold trim. rewrite (trimStart_head s Hh).
  by apply trimEnd_last_id.
Qed.

Lemma trim_idempotent s : trim (trim s) = trim s.
Proof.
  apply trim_unpadded.
  - intros c r. apply trim_head.
  - intros r c. apply trim_last.
Qed.

Lemma trim_subset s c : In c (trim s) -> In c s.
Proof.
  destruct (trim_split s) as (l & r & Heq & _). intros Hin.
  rewrite Heq. apply in_or_app. right. apply in_or_app. by left.
Qed.

Lemma split_without_sep sep w : ~ In sep w -> split sep w = [w].
Proof.
  induction w as [|c r IH]; [reflexivity|]. intros Hn. simpl.
  destruct (c =? sep)%N eqn:E.
  - apply N.eqb_eq in E. destruct Hn. by left.
  - rewrite IH; [reflexivity|]. intros Hin. apply Hn. by right.
Qed.

Lemma split_app sep w r :
  ~ In sep w -> split sep (w ++ sep :: r) = w :: split sep r.
Proof.
  induction w as [|c u IH]; intros Hn; simpl.
  - by rewrite N.eqb_refl.
  - destruct (c =? sep)%N eqn:E.
    + apply N.eqb_eq in E. destruct Hn. by left.
    + rewrite IH; [reflexivity|]. intros Hin. apply Hn. by right.
Qed.

Lemma trim_space s : trim (32%N :: s) = trim s.
Proof. reflexivity. Qed.

Lemma skills_after_space text :
  List.filter Boolean (List.map trim (split comma (32%N :: text)))
  = List.filter Boolean (List.map trim (split comma text)).
Proof.
  cbn [split]. change (32 =? comma)%N with false. cbv iota.
  destruct (split_cons comma text) as (w & ws & ->).
  cbn [List.map]. by rewrite trim_space.
Qed.

(** Reading back a list of skills that was joined with ', '. *)
Lemma skills_of_joined (l : list jsstring) :
  Forall (fun s => s <> [] /\ ~ In comma s /\ trim s = s) l ->
  List.filter Boolean (List.map trim (split comma (joinWith (js ", ") l))) = l.
Proof.
  induction l as [|w l IH]; intros Hl; [reflexivity|].
  inversion Hl as [|? ? (Hne & Hcomma & Htrim) Hl']; subst.
  destruct l as [|w2 l].
  - cbn [joinWith]. rewrite split_without_sep by exact Hcomma.
    cbn [List.map List.filter]. rewrite Htrim.
    destruct w; [by destruct Hne | reflexivity].
  - change (joinWith (js ", ") (w :: w2 :: l))
      with (w ++ comma :: 32%N :: joinWith (js ", ") (w2 :: l)).
    rewrite split_app by exact Hcomma.
    cbn [List.map List.filter]. rewrite Htrim.
    destruct w as [|c w]; [by destruct Hne|]. cbn [Boolean]. f_equal.
    change (List.filter Boolean
              (List.map trim (split comma (32%N :: joinWith (js ", ") (w2 :: l))))
            = w2 :: l).
    rewrite skills_after_space. by apply IH.
Qed.

Lemma skills_well_formed text :
  Forall (fun s => s <> [] /\ ~ In comma s /\ trim s = s)
    (List.filter Boolean (List.map trim (split comma text))).
Proof.
  apply List.Forall_forall. intros s Hs.
  apply filter_In in Hs as [Hs Hb]. apply in_map_iff in Hs as (w & <- & Hw).
  split; [|split].
  - intros E. by rewrite E in Hb.
  - intros Hin. apply trim_subset in Hin.
    pose proof (split_no_sep comma text) as Hall.
    rewrite List.Forall_forall in Hall. exact (Hall _ Hw Hin).
  - apply trim_idempotent.
Qed.

(** X1.  The profile form, opened on a user whose skills are non-empty, hold
    no comma and carry no white space at either end, and submitted
    untouched, sends one request, the PUT of a body whose skills are
    exactly the user's skills, in the same order: joining with ', ' and
    reading back with [split], [trim] and [filter] is a round trip. *)
Theorem profile_form_skills_round_trip (user : User.t) (r : response User.t) :
  Forall (fun s => s <> [] /\ ~ In comma s /\ trim s = s) (User.skills user) ->
  exists b,
    requests (ProfileSettings.handleSubmit (ProfileSettings.initial user) r)
    = [Put UsersProfile (UpdateProfileBody b)]
    /\ body_skills b = User.skills user.
Proof.
  intros Hwf. exists (ProfileSettings.requestBody (ProfileSettings.initial user)).
  split; [apply profile_handleSubmit_requests | by apply skills_of_joined].
Qed.

Lemma profile_form_skills_round_trip_sample :
  exists b,
    requests (ProfileSettings.handleSubmit
                (ProfileSettings.initial Sample.gardener)
                (Resolved Sample.gardener))
    = [Put UsersProfile (UpdateProfileBody b)]
    /\ body_skills b = [js "Gardening"; js "Dog walking"].
Proof.
  apply (profile_form_skills_round_trip Sample.gardener (Resolved Sample.gardener)).
  repeat constructor; try discriminate; vm_compute; intuition discriminate.
Defined.

(** X2.  Whatever skills text a profile form submits, once the user record
    holds the list its PUT carried, opening the form again and submitting
    it untouched sends a PUT that carries the same list: the list a
    submission sends is a fixed point of the form. *)
Theorem profile_skills_resubmitted_unchanged (fd : ProfileSettings.formData)
    (user : User.t) (r r' : response User.t) (sent : ProfileBody) :
  requests (ProfileSettings.handleSubmit fd r)
  = [Put UsersProfile (UpdateProfileBody sent)] ->
  User.skills user = body_skills sent ->
  exists again,
    requests (ProfileSettings.handleSubmit (ProfileSettings.initial user) r')
    = [Put UsersProfile (UpdateProfileBody again)]
    /\ body_skills again = body_skills sent.
Proof.
  intros Hsent Hsaved.
  rewrite profile_handleSubmit_requests in Hsent. injection Hsent as <-.
  exists (ProfileSettings.requestBody (ProfileSettings.initial user)).
  split; [apply profile_handleSubmit_requests|].
  rewrite <- Hsaved. apply skills_of_joined.
  rewrite Hsaved. apply skills_well_formed.
Qed.

Lemma profile_skills_resubmitted_unchanged_sample :
  exists again,
    requests (ProfileSettings.handleSubmit
                (ProfileSettings.initial Sample.gardener)
                (Resolved Sample.gardener))
    = [Put UsersProfile (UpdateProfileBody again)]
    /\ body_skills again
       = body_skills (ProfileSettings.requestBody Sample.typedProfile)
    /\ body_skills (ProfileSettings.requestBody Sample.typedProfile)
       = [js "Gardening"; js "Dog walking"].
Proof.
  destruct (profile_skills_resubmitted_unchanged Sample.typedProfile
              Sample.gardener (Resolved Sample.gardener)
              (Resolved Sample.gardener)
              (ProfileSettings.requestBody Sample.typedProfile))
    as (again & Hreq & Hskills).
  - reflexivity.
  - vm_compute. reflexivity.
  - exists again. split; [exact Hreq|]. split; [exact Hskills|].
    vm_compute. reflexivity.
Defined.

End SkillsRoundTrip.

(** ** The number fields, continued *)

Section NumberFields.

Implicit Types (s rest : jsstring).

Lemma parseDigits_stop rest acc seen :
  match rest with [] => True | c :: _ => digitValue 10 c = None end ->
  parseDigits 10 rest acc seen = if seen then Some acc else None.
Proof.
  destruct rest as [|c r]; [reflexivity|]. simpl. by intros ->.
Qed.

Lemma parseDigits_digitsOf_app d rest acc :
  match rest with [] => True | c :: _ => digitValue 10 c = None end ->
  parseDigits 10 (digitsOf d ++ rest) acc true
  = parseDigits 10 (digitsOf d) acc true.
Proof.
  intros Hrest. revert acc.
  induction d; intros acc; simpl digitsOf;
    [ simpl; rewrite parseDigits_stop by exact Hrest; reflexivity | ..];
    cbn [app parseDigits]; cbn [digitValue]; simpl; apply IHd.
Qed.

Lemma nzhead_not_zero d d' : Decimal.nzhead d <> Decimal.D0 d'.
Proof. induction d; simpl; congruence. Qed.

(** The decimal numeral of a positive number has no leading zero. *)
Lemma to_uint_no_leading_zero p d : Pos.to_uint p <> Decimal.D0 d.
Proof.
  intros E.
  pose proof (DecimalPos.Unsigned.to_of (Pos.to_uint p)) as H.
  rewrite DecimalPos.Unsigned.of_to in H. simpl in H.
  pose proof (DecimalPos.Unsigned.to_uint_nonzero p) as Hnz.
  rewrite E in H, Hnz. unfold Decimal.unorm in H. simpl in H.
  destruct (Decimal.nzhead d) eqn:En; try discriminate H.
  - injection H as ->. by destruct Hnz.
  - by apply nzhead_not_zero in En.
Qed.

(** Digits with no leading zero, followed by text that does not go on
    with a digit: how each step of [parseInt] reads them. *)
Lemma digits_then_rest d rest :
  d <> Decimal.Nil -> (forall d', d <> Decimal.D0 d') ->
  match rest with [] => True | c :: _ => digitValue 10 c = None end ->
  let text := digitsOf d ++ rest in
  trimStart text = text /\ readSign text = (1%Z, text)
  /\ readRadix text = (10%Z, text)
  /\ parseDigits 10 text 0 false = Some (Z.of_N (Pos.of_uint d)).
Proof.
  intros Hnil Hzero Hrest text.
  assert (Hdigits : parseDigits 10 text 0 false
                    = Some (Z.of_N (Pos.of_uint d))).
  { rewrite DecimalPos.Unsigned.of_uint_alt.
    rewrite <- parseDigits_first by exact Hnil. unfold text.
    destruct d; try congruence; simpl digitsOf; cbn [app parseDigits];
      cbn [digitValue]; simpl; by rewrite parseDigits_digitsOf_app. }
  split; [|split; [|split; [|exact Hdigits]]]; unfold text;
    destruct d; try congruence; try (by destruct (Hzero d)); reflexivity.
Qed.

Lemma parseInt_decimal_app n rest :
  n <> 0%Z ->
  match rest with [] => True | c :: _ => digitValue 10 c = None end ->
  parseInt (decimal n ++ rest) = toNumber n.
Proof.
  intros Hn Hrest. unfold decimal, Z.to_int.
  destruct n as [|p|p]; [done|..].
  - destruct (digits_then_rest (Pos.to_uint p) rest) as (H1 & H2 & H3 & H4);
      [apply DecimalPos.Unsigned.to_uint_nonnil
      |intros d'; apply to_uint_no_leading_zero | exact Hrest |].
    unfold parseInt. rewrite H1, H2, H3, H4.
    by rewrite DecimalPos.Unsigned.of_to.
  - destruct (digits_then_rest (Pos.to_uint p) rest) as (H1 & H2 & H3 & H4);
      [apply DecimalPos.Unsigned.to_uint_nonnil
      |intros d'; apply to_uint_no_leading_zero | exact Hrest |].
    unfold parseInt.
    change (trimStart ((45%N :: digitsOf (Pos.to_uint p)) ++ rest))
      with (45%N :: digitsOf (Pos.to_uint p) ++ rest).
    cbn [readSign]. rewrite H3, H4.
    by rewrite DecimalPos.Unsigned.of_to.
Qed.

Lemma or_number_truthy (x : number) :
  truthy_number x = true -> or_number x (Num 30) = x.
Proof. intros H. unfold or_number. by rewrite H. Qed.

(** X3.  The duration and credits fields read the integer part of the
    number typed and drop what follows it: for a nonzero integer in
    decimal followed by a fraction ('.') or an exponent ('e', 'E'), the
    stored value is the Number value for that integer, which is the
    integer itself when its magnitude is below 2^53. *)
Theorem number_fields_read_integer_part (n : Z) (rest : jsstring)
    (p : CreateTask.formData) :
  n <> 0%Z ->
  match rest with
  | [] => True
  | c :: _ => c = 46%N \/ c = 101%N \/ c = 69%N
  end ->
  let text := decimal n ++ rest in
  CreateTask.duration (CreateTask.onDurationChange text p) = toNumber n
  /\ CreateTask.credits_offered (CreateTask.onCreditsChange text p)
     = toNumber n
  /\ ((Z.abs n < 2 ^ 53)%Z -> toNumber n = Num n).
Proof.
  intros Hn Hrest text.
  assert (Hparse : parseInt text = toNumber n).
  { unfold text. apply parseInt_decimal_app; [exact Hn|].
    destruct rest as [|c r]; [exact I|].
    destruct Hrest as [-> | [-> | ->]]; reflexivity. }
  unfold CreateTask.onDurationChange, CreateTask.onCreditsChange. simpl.
  rewrite Hparse, or_number_truthy by (by apply toNumber_truthy).
  split; [reflexivity|]. split; [reflexivity|]. apply toNumber_exact.
Qed.

Lemma number_fields_read_integer_part_sample :
  CreateTask.duration
    (CreateTask.onDurationChange (js "12.7") CreateTask.initial)
  = Num 12
  /\ CreateTask.credits_offered
       (CreateTask.onCreditsChange (js "-1e3") CreateTask.initial)
     = Num (-1).
Proof.
  split.
  - refine (proj1 (number_fields_read_integer_part 12 (js ".7")
                     CreateTask.initial _ _)); [lia | left; reflexivity].
  - refine (proj1 (proj2 (number_fields_read_integer_part (-1) (js "e3")
                     CreateTask.initial _ _))); [lia | right; left; reflexivity].
Defined.

Lemma or_number_kept (x : number) :
  truthy_number (or_number x (Num 30)) = true.
Proof.
  unfold or_number. by destruct (truthy_number x) eqn:E.
Qed.

Lemma onChange_keeps_numbers (e : CreateTask.change) (p : CreateTask.formData) :
  truthy_number (CreateTask.duration p) = true
  /\ truthy_number (CreateTask.credits_offered p) = true ->
  truthy_number (CreateTask.duration (CreateTask.onChange e p)) = true
  /\ truthy_number (CreateTask.credits_offered (CreateTask.onChange e p)) = true.
Proof.
  intros [Hd Hc].
  destruct e as [v|v|v|v|v|v|v]; simpl; try (split; assumption).
  - split; [apply or_number_kept | exact Hc].
  - split; [exact Hd | apply or_number_kept].
Qed.

(** X4.  Whatever the user does to the create form, in any order, neither
    its duration nor its credits is ever NaN or 0: each is a nonzero
    integer or, after a numeral too long for a double, an infinity. *)
Theorem edited_form_numbers_nonzero (changes : list CreateTask.change) :
  let kept (x : number) :=
    (exists d, x = Num d /\ d <> 0%Z) \/ (exists negative, x = Infinity negative) in
  kept (CreateTask.duration (CreateTask.edited changes))
  /\ kept (CreateTask.credits_offered (CreateTask.edited changes)).
Proof.
  intros kept.
  assert (Hkept : forall x, truthy_number x = true -> kept x).
  { intros [|d|b] H; [discriminate | left | right; by exists b].
    exists d. split; [reflexivity|].
    simpl in H. apply negb_true_iff in H. by apply Z.eqb_neq. }
  assert (H : forall p,
            truthy_number (CreateTask.duration p) = true
            /\ truthy_number (CreateTask.credits_offered p) = true ->
            let q := fold_left (fun p e => CreateTask.onChange e p) changes p in
            truthy_number (CreateTask.duration q) = true
            /\ truthy_number (CreateTask.credits_offered q) = true).
  { induction changes as [|e l IH]; intros p Hp; [exact Hp|].
    simpl. apply IH, onChange_keeps_numbers, Hp. }
  destruct (H CreateTask.initial) as [Hd Hc]; [by split|].
  split; by apply Hkept.
Qed.

End NumberFields.

(** ** Filters, the sidebar and the lists of the dashboard *)

Section Params.

Implicit Types filters : gmap jsstring jsstring.

Lemma params_other_key filters k :
  k <> js "status" -> k <> js "taskType" ->
  DashboardLayout.params filters !! k = filters !! k.
Proof.
  intros Hs Ht. unfold DashboardLayout.params.
  assert (H : (filters ∪ {[js "status" := js "open"]}) !! k = filters !! k).
  { destruct (filters !! k) as [v|] eqn:E.
    - by apply lookup_union_Some_l.
    - apply lookup_union_None. split; [exact E|].
      by apply lookup_singleton_ne. }
  case_bool_decide; [|exact H]. by rewrite lookup_delete_ne.
Qed.

(** X6.  [loadTasks] hands the caller's filters on: a status among them
    replaces the default 'open', every key other than [status] and
    [taskType] is sent exactly as given (and not sent when absent), and
    [taskType] is sent as given unless it is 'all', which is dropped. *)
Theorem params_pass_filters_through filters :
  (forall v, filters !! js "status" = Some v ->
             DashboardLayout.params filters !! js "status" = Some v)
  /\ (forall k, k <> js "status" -> k <> js "taskType" ->
                DashboardLayout.params filters !! k = filters !! k)
  /\ DashboardLayout.params filters !! js "taskType"
     = (if bool_decide (filters !! js "taskType" = Some (js "all"))
        then None else filters !! js "taskType").
Proof.
  unfold DashboardLayout.params. split; [|split].
  - intros v Hv. case_bool_decide.
    + rewrite lookup_delete_ne by discriminate. by apply lookup_union_Some_l.
    + by apply lookup_union_Some_l.
  - intros k. apply params_other_key.
  - case_bool_decide as Hall.
    + apply lookup_delete_eq.
    + destruct (filters !! js "taskType") as [v|] eqn:E.
      * by apply lookup_union_Some_l.
      * apply lookup_union_None. split; [exact E|].
        by apply lookup_singleton_ne.
Qed.

Lemma params_pass_filters_through_sample :
  DashboardLayout.params Sample.assignedFilter !! js "status"
  = Some (js "assigned")
  /\ DashboardLayout.params Sample.assignedFilter !! js "title"
     = Sample.assignedFilter !! js "title".
Proof.
  pose proof (params_pass_filters_through Sample.assignedFilter) as (Hs & Hk & _).
  split.
  - apply Hs. reflexivity.
  - apply Hk; discriminate.
Defined.

End Params.

Section Sidebar.

Lemma startsWith_app prefix s :
  startsWith prefix s = true <-> exists rest, s = prefix ++ rest.
Proof.
  revert s. induction prefix as [|p prefix IH]; intros s; simpl.
  - split; [intros _; by exists s | reflexivity].
  - destruct s as [|c s]; [split; [discriminate | intros [r Hr]; discriminate]|].
    rewrite andb_true_iff, N.eqb_eq, IH. split.
    + intros [-> [r ->]]. by exists r.
    + intros [r [= -> ->]]. split; [reflexivity | by exists r].
Qed.

Lemma isActive_dashboard pathname :
  Sidebar.isActive pathname (js "/dashboard") = true <-> pathname = js "/dashboard".
Proof.
  unfold Sidebar.isActive, strict_eq.
  rewrite (bool_decide_true (js "/dashboard" = js "/dashboard")) by reflexivity.
  simpl negb. rewrite andb_false_r, andb_true_r. simpl.
  apply bool_decide_eq_true.
Qed.

Lemma isActive_page pathname path :
  path <> js "/dashboard" ->
  Sidebar.isActive pathname path = true <-> exists rest, pathname = path ++ rest.
Proof.
  intros Hp. unfold Sidebar.isActive, strict_eq.
  rewrite (bool_decide_false (path = js "/dashboard")) by exact Hp.
  simpl negb. rewrite andb_true_r, andb_false_r, orb_false_r.
  apply startsWith_app.
Qed.

(** X7.  Whatever the path of the page, the sidebar highlights at most one of
    its four items; on the page of an item it highlights that item alone;
    and the Dashboard item is highlighted on /dashboard only, not on the
    pages below it. *)
Theorem sidebar_highlights_at_most_one (pathname : jsstring) :
  length (Sidebar.activeItems pathname) <= 1
  /\ (forall path, In path Sidebar.navItems ->
        Sidebar.activeItems path = [path])
  /\ (In (js "/dashboard") (Sidebar.activeItems pathname) <->
      pathname = js "/dashboard").
Proof.
  split; [|split].
  - unfold Sidebar.activeItems, Sidebar.navItems. cbn [List.filter].
    destruct (Sidebar.isActive pathname (js "/dashboard")) eqn:E0;
    destruct (Sidebar.isActive pathname (js "/dashboard/explore")) eqn:E1;
    destruct (Sidebar.isActive pathname (js "/dashboard/my-tasks")) eqn:E2;
    destruct (Sidebar.isActive pathname (js "/dashboard/profile")) eqn:E3;
    cbn [length]; try lia; exfalso;
    try (apply isActive_dashboard in E0);
    try (apply isActive_page in E1 as [r1 H1]; [|discriminate]);
    try (apply isActive_page in E2 as [r2 H2]; [|discriminate]);
    try (apply isActive_page in E3 as [r3 H3]; [|discriminate]);
    subst pathname; discriminate.
  - intros path Hin. unfold Sidebar.navItems in Hin. simpl in Hin.
    destruct Hin as [<-|[<-|[<-|[<-|[]]]]]; vm_compute; reflexivity.
  - unfold Sidebar.activeItems. rewrite filter_In. split.
    + intros [_ H]. by apply isActive_dashboard.
    + intros ->. split; [by left | by apply isActive_dashboard].
Qed.

Lemma sidebar_highlights_at_most_one_sample :
  Sidebar.activeItems (js "/dashboard/my-tasks") = [js "/dashboard/my-tasks"].
Proof.
  apply (sidebar_highlights_at_most_one []).
  right. right. left. reflexivity.
Defined.

End Sidebar.

Section Home.

Lemma filter_and_length {A} (p q : A -> bool) (l : list A) :
  length (List.filter (fun x => p x && q x) l) <= length (List.filter p l)
  /\ (length (List.filter (fun x => p x && q x) l) = length (List.filter p l)
      <-> forall x, In x l -> p x = true -> q x = true).
Proof.
  induction l as [|x l [IHle IHeq]]; simpl.
  - split; [lia|]. split; [intros _ x [] | reflexivity].
  - destruct (p x) eqn:Ep; simpl.
    + destruct (q x) eqn:Eq; simpl.
      * split; [lia|]. split.
        -- intros H y [<-|Hy] Hpy; [exact Eq|].
           apply IHeq; [lia | exact Hy | exact Hpy].
        -- intros H. f_equal. apply IHeq. intros y Hy. apply H. by right.
      * split; [lia|]. split; [lia|].
        intros H. specialize (H x (or_introl eq_refl) Ep). congruence.
    + split; [exact IHle|]. split.
      * intros H y [<-|Hy] Hpy; [congruence|]. by apply IHeq.
      * intros H. apply IHeq. intros y Hy. apply H. by right.
Qed.

(** X8.  On the dashboard home the Tasks Received figure never exceeds Tasks
    Completed, which never exceeds the number of tasks listed; the two
    figures are equal exactly when every validated task of the list was
    created by the user. *)
Theorem home_received_within_completed (user : User.t) (myTasks : list Task.t) :
  DashboardHome.tasksReceived user myTasks
    <= DashboardHome.tasksCompleted myTasks <= length myTasks
  /\ (DashboardHome.tasksReceived user myTasks
      = DashboardHome.tasksCompleted myTasks
      <-> forall t, In t myTasks -> Task.status t = js "validated" ->
                    Task.created_by t = User.id user).
Proof.
  unfold DashboardHome.tasksReceived, DashboardHome.tasksCompleted.
  destruct (filter_and_length
              (fun t => strict_eq (Task.status t) (js "validated"))
              (fun t => strict_eq (Task.created_by t) (User.id user))
              myTasks) as [Hle Heq].
  split; [split; [exact Hle | apply filter_length_le]|].
  rewrite Heq. unfold strict_eq.
  split; intros H t Hin Hst.
  - eapply bool_decide_eq_true_1, H; [exact Hin | by apply bool_decide_eq_true_2].
  - apply bool_decide_eq_true_2. apply bool_decide_eq_true_1 in Hst. by apply H.
Qed.

Lemma split_head sep s :
  exists w ws, split sep s = w :: ws /\ ~ In sep w
    /\ (s = w \/ exists rest, s = w ++ sep :: rest).
Proof.
  induction s as [|c r (w & ws & Hs & Hn & Hr)]; simpl.
  - exists [], []. split; [reflexivity|]. split; [intros []|by left].
  - destruct (c =? sep)%N eqn:E.
    + apply N.eqb_eq in E as ->. exists [], (split sep r).
      split; [reflexivity|]. split; [intros []|]. right. by exists r.
    + rewrite Hs. exists (c :: w), ws. split; [reflexivity|]. split.
      * intros [->|Hin]; [by rewrite N.eqb_refl in E | by apply Hn].
      * destruct Hr as [->|[rest ->]]; [by left|]. right. by exists rest.
Qed.

(** X9.  The name in the greeting is the text of the user's name before its
    first space: it holds no space, and the name is that text, alone or
    followed by a space (so a name that starts with a space is greeted
    with the empty text). *)
Theorem greeting_uses_text_before_first_space (user : User.t) :
  let first := DashboardHome.firstName user in
  ~ In 32%N first
  /\ (User.name user = first
      \/ exists rest, User.name user = first ++ 32%N :: rest).
Proof.
  unfold DashboardHome.firstName.
  destruct (split_head 32 (User.name user)) as (w & ws & Hs & Hn & Hr).
  rewrite Hs. by split.
Qed.

Lemma home_received_within_completed_sample :
  DashboardHome.tasksReceived Sample.creator [Sample.ownTask; Sample.documented]
  = DashboardHome.tasksCompleted [Sample.ownTask; Sample.documented].
Proof.
  apply (home_received_within_completed Sample.creator
           [Sample.ownTask; Sample.documented]).
  intros t [<-|[<-|[]]] H; vm_compute in H; discriminate.
Defined.

End Home.

Section MyTasksTabs.

Lemma filter_lengths_add {A} (p q : A -> bool) (l : list A) :
  (forall x, In x l -> xorb (p x) (q x) = true) ->
  length (List.filter p l) + length (List.filter q l) = length l.
Proof.
  induction l as [|x l IH]; intros H; [reflexivity|]. simpl.
  pose proof (H x (or_introl eq_refl)) as Hx.
  assert (IH' : length (List.filter p l) + length (List.filter q l) = length l).
  { apply IH. intros y Hy. apply H. by right. }
  destruct (p x), (q x); simpl in *; try discriminate; lia.
Qed.

(** X10.  Each tab of My Tasks shows, in the order of the list received, the
    tasks the user created (resp. is assigned to) and no other.  When
    every task of the list is either created by the user or assigned to
    the user, and none is both, the counters of the two tabs add up to the
    length of the list. *)
Theorem my_tasks_tabs (user : User.t) (myTasks : list Task.t) (tab : MyTasks.tab) :
  (forall task, In task (MyTasks.tasksToShow tab user myTasks) <->
     In task myTasks
     /\ match tab with
        | MyTasks.created => Task.created_by task = User.id user
        | MyTasks.doing => Task.assigned_to task = Some (User.id user)
        end)
  /\ sublist (MyTasks.tasksToShow tab user myTasks) myTasks
  /\ ((forall task, In task myTasks ->
         (Task.created_by task = User.id user
          /\ Task.assigned_to task <> Some (User.id user))
         \/ (Task.created_by task <> User.id user
             /\ Task.assigned_to task = Some (User.id user))) ->
      length (MyTasks.tasksCreated user myTasks)
      + length (MyTasks.tasksDoing user myTasks) = length myTasks).
Proof.
  split; [|split].
  - intros task. destruct tab; unfold MyTasks.tasksToShow, MyTasks.tasksCreated,
      MyTasks.tasksDoing, strict_eq; rewrite filter_In;
      by rewrite bool_decide_eq_true.
  - destruct tab; unfold MyTasks.tasksToShow, MyTasks.tasksCreated,
      MyTasks.tasksDoing.
    + induction myTasks as [|t l IH]; simpl; [constructor|].
      destruct (strict_eq _ _); by constructor.
    + induction myTasks as [|t l IH]; simpl; [constructor|].
      destruct (bool_decide _); by constructor.
  - intros H. unfold MyTasks.tasksCreated, MyTasks.tasksDoing.
    apply filter_lengths_add. intros t Ht. unfold strict_eq.
    destruct (H t Ht) as [[Hc Hd]|[Hc Hd]].
    + by rewrite (bool_decide_true _ Hc), (bool_decide_false _ Hd).
    + by rewrite (bool_decide_false _ Hc), (bool_decide_true _ Hd).
Qed.

Lemma my_tasks_tabs_sample :
  length (MyTasks.tasksCreated Sample.gardener [Sample.documented; Sample.otherTask])
  + length (MyTasks.tasksDoing Sample.gardener [Sample.documented; Sample.otherTask])
  = 2.
Proof.
  apply (my_tasks_tabs Sample.gardener [Sample.documented; Sample.otherTask]
           MyTasks.created).
  intros task [<-|[<-|[]]].
  - right. split; [vm_compute; discriminate | reflexivity].
  - left. split; [reflexivity | vm_compute; discriminate].
Defined.

End MyTasksTabs.

(** ** The detail page and the refreshes *)

Section DetailMore.

Lemma findTask_first taskId data found :
  TaskDetailPage.findTask taskId data = Some found <->
  exists before after,
    data = before ++ found :: after /\ Task.id found = taskId
    /\ Forall (fun t => Task.id t <> taskId) before.
Proof.
  unfold TaskDetailPage.findTask, strict_eq.
  induction data as [|t l IH]; simpl.
  - split; [discriminate|]. intros (b & a & H & _). by destruct b.
  - case_bool_decide as Ht.
    + split.
      * intros [= <-]. exists [], l. split; [reflexivity|]. by split.
      * intros (b & a & H & Hid & Hb). destruct b as [|t' b].
        -- by injection H as <- _.
        -- injection H as <- _. inversion Hb; subst. congruence.
    + rewrite IH. split.
      * intros (b & a & -> & Hid & Hb). exists (t :: b), a.
        split; [reflexivity|]. split; [exact Hid|]. by constructor.
      * intros (b & a & H & Hid & Hb). destruct b as [|t' b].
        -- injection H as -> _. congruence.
        -- injection H as <- ->. inversion Hb; subst. by exists b, a.
Qed.

(** X11.  When the collection holds a task with the route id, the detail page
    shows the first such task of the collection: every task before it has
    another id.  So when the ids of the collection are distinct, opening
    the page with the id of one of its tasks shows that very task. *)
Theorem fetchTask_selects_first_match (taskId : jsstring) (data : list Task.t)
    (found : Task.t) :
  (TaskDetailPage.fetchTask taskId (Resolved data)
   = [setLoading true; Get TasksMy ∅; setTask found; setLoading false]
   <-> exists before after,
         data = before ++ found :: after /\ Task.id found = taskId
         /\ Forall (fun t => Task.id t <> taskId) before)
  /\ (NoDup (Task.id <$> data) -> In found data ->
      TaskDetailPage.fetchTask (Task.id found) (Resolved data)
      = [setLoading true; Get TasksMy ∅; setTask found; setLoading false]).
Proof.
  assert (Hiff : TaskDetailPage.fetchTask taskId (Resolved data)
     = [setLoading true; Get TasksMy ∅; setTask found; setLoading false]
     <-> TaskDetailPage.findTask taskId data = Some found).
  { unfold TaskDetailPage.fetchTask.
    destruct (TaskDetailPage.findTask taskId data) as [t|]; simpl.
    - split; [by intros [= ->] | by intros [= ->]].
    - split; discriminate. }
  split.
  - rewrite Hiff. apply findTask_first.
  - intros Hnd Hin.
    assert (H : TaskDetailPage.findTask (Task.id found) data = Some found).
    { apply findTask_first.
      apply in_split in Hin as (b & a & ->). exists b, a.
      split; [reflexivity|]. split; [reflexivity|].
      rewrite fmap_app, fmap_cons in Hnd.
      apply NoDup_app in Hnd as (_ & Hdis & _).
      apply List.Forall_forall. intros t Ht Heq.
      apply (Hdis (Task.id t)).
      - apply list_elem_of_fmap. exists t. split; [reflexivity|].
        by apply list_elem_of_In.
      - rewrite Heq. by left. }
    unfold TaskDetailPage.fetchTask. by rewrite H.
Qed.

(** X12.  A click on Complete Task posts the validate request exactly when the
    current user is the assignee of the task, its status is 'assigned' and
    both photos are there; in every other case (the creator looking at the
    task, a task already validated, a missing photo) nothing is sent. *)
Theorem complete_button_validates_for_assignee_only (task : Task.t)
    (user : User.t) (taskId : jsstring) (r : response unit) :
  let allowed :=
    Task.assigned_to task = Some (User.id user)
    /\ Task.status task = js "assigned"
    /\ (exists b, Task.before_photo task = Some b /\ b <> [])
    /\ (exists a, Task.after_photo task = Some a /\ a <> []) in
  (allowed ->
   exists rest,
     TaskDetailPage.clickComplete task user taskId r
     = Post (TaskValidate taskId) NoBody :: rest)
  /\ (~ allowed -> TaskDetailPage.clickComplete task user taskId r = []).
Proof.
  intros allowed.
  assert (Hiff : TaskDetailPage.showsCompleteButton task user
                 && negb (TaskDetailPage.completeDisabled task) = true
                 <-> allowed).
  { unfold TaskDetailPage.showsCompleteButton, TaskDetailPage.isTaskAssignee,
      TaskDetailPage.completeDisabled, strict_eq, allowed.
    rewrite !andb_true_iff, !bool_decide_eq_true, negb_true_iff.
    rewrite photoMissing_false, !truthy_nonempty. tauto. }
  unfold TaskDetailPage.clickComplete. split.
  - intros Ha. apply Hiff in Ha as Hb. rewrite Hb.
    apply andb_true_iff in Hb as [_ Hm]. apply negb_true_iff in Hm.
    unfold TaskDetailPage.completeDisabled in Hm.
    unfold TaskDetailPage.handleValidation. rewrite Hm. by eexists.
  - intros Hn.
    destruct (_ && _) eqn:E; [|reflexivity].
    destruct Hn. by apply Hiff.
Qed.

Lemma fetchTask_selects_first_match_sample :
  TaskDetailPage.fetchTask (js "t2")
    (Resolved [Sample.ownTask; Sample.otherTask])
  = [setLoading true; Get TasksMy ∅; setTask Sample.otherTask;
     setLoading false].
Proof.
  apply (fetchTask_selects_first_match [] [Sample.ownTask; Sample.otherTask]
           Sample.otherTask).
  - apply (bool_decide_unpack _). vm_compute. exact I.
  - right. left. reflexivity.
Defined.

Lemma complete_button_validates_for_assignee_only_sample :
  (exists rest,
     TaskDetailPage.clickComplete Sample.documented Sample.gardener (js "t1")
       (Resolved tt)
     = Post (TaskValidate (js "t1")) NoBody :: rest)
  /\ TaskDetailPage.clickComplete Sample.documented Sample.creator (js "t1")
       (Resolved tt) = [].
Proof.
  split.
  - apply (complete_button_validates_for_assignee_only Sample.documented
             Sample.gardener (js "t1") (Resolved tt)).
    split; [reflexivity|]. split; [reflexivity|].
    split; eexists; (split; [reflexivity | discriminate]).
  - apply (complete_button_validates_for_assignee_only Sample.documented
             Sample.creator (js "t1") (Resolved tt)).
    intros [H _]. vm_compute in H. discriminate.
Defined.

End DetailMore.

Section AcceptRefresh.

(** X13.  After a successful accept on the explore page the list is reloaded
    from the state object of the filters: the requests are the assign POST
    and one GET of the task list whose parameters hold status 'open' and
    the key [searchTerm], and hold neither [title] nor [task_type], the
    keys the search itself sends. *)
Theorem accept_refresh_sends_no_filter (task : Task.t) (f : BrowseTasks.filters)
    (r : response (list Task.t)) :
  Task.status task = js "open" ->
  exists params,
    requests (TaskCard.clickAccept task (Some (BrowseTasks.onAssign f r))
                (Resolved tt))
    = [Post (TaskAssign (Task.id task)) NoBody; Get Tasks params]
    /\ params !! js "status" = Some (js "open")
    /\ params !! js "title" = None
    /\ params !! js "task_type" = None
    /\ params !! js "searchTerm" = Some (BrowseTasks.searchTerm f).
Proof.
  intros Hopen. exists (DashboardLayout.params (BrowseTasks.stateFilters f)).
  split.
  - unfold TaskCard.clickAccept, TaskCard.showsAcceptButton, strict_eq.
    rewrite bool_decide_true by exact Hopen.
    unfold TaskCard.handleAssign, BrowseTasks.onAssign.
    change (requests (?a :: ?b :: ?l)) with (a :: requests l).
    by rewrite loadTasks_requests.
  - split; [apply params_status, stateFilters_status|].
    rewrite !params_other_key by discriminate. unfold BrowseTasks.stateFilters.
    split; [|split].
    + rewrite !lookup_insert_ne by discriminate. apply lookup_empty.
    + rewrite !lookup_insert_ne by discriminate. apply lookup_empty.
    + apply lookup_insert_eq.
Qed.

Lemma accept_refresh_sends_no_filter_sample :
  exists params,
    requests (TaskCard.clickAccept Sample.otherTask
                (Some (BrowseTasks.onAssign BrowseTasks.initial (Resolved [])))
                (Resolved tt))
    = [Post (TaskAssign (Task.id Sample.otherTask)) NoBody; Get Tasks params]
    /\ params !! js "status" = Some (js "open")
    /\ params !! js "title" = None
    /\ params !! js "task_type" = None
    /\ params !! js "searchTerm" = Some (BrowseTasks.searchTerm BrowseTasks.initial).
Proof.
  apply (accept_refresh_sends_no_filter Sample.otherTask BrowseTasks.initial
           (Resolved [])).
  reflexivity.
Defined.

End AcceptRefresh.

Section Refresh.

Import DashboardLayout.

(** X14.  [refreshAllTasks] starts both loaders, and the state it ends in does
    not depend on which answer arrives first: each list is the data of its
    answer, or what it was when the request failed, and the loading flag
    is off.  The flag is on once both have started, and it goes off with
    the first answer, whichever it is, while the other request is still in
    flight. *)
Theorem refresh_answers_commute (o : arrival) (r1 r2 : response (list Task.t))
    (s : state) :
  let loaded (r : response (list Task.t)) (old : list Task.t) :=
    match r with Resolved data => data | Rejected _ => old end in
  updates (refreshAllTasks o r1 r2) s
  = {| tasks := loaded r1 (tasks s); myTasks := loaded r2 (myTasks s);
       loadingTasks := false |}
  /\ loadingTasks (updates refreshAllTasksBegin s) = true
  /\ loadingTasks
       (updates (refreshAllTasksBegin ++ (common <$> loadTasksResume r1)) s)
     = false
  /\ loadingTasks (updates (refreshAllTasksBegin ++ loadMyTasksResume r2) s)
     = false.
Proof.
  intros loaded. destruct s as [t m l].
  split; [destruct o, r1, r2; reflexivity|].
  split; [reflexivity|]. split; [by destruct r1 | by destruct r2].
Qed.

Lemma loadTasks_pieces filters r :
  loadTasks filters r = loadTasksBegin filters ++ loadTasksResume r.
Proof. reflexivity. Qed.

End Refresh.
